(** * A shallow embedding of [snake_game.py]

    The simulation core of the game (classes [Snake], [Food] and the
    state-carrying methods of [GameBoard]) is embedded as executable Rocq
    functions.  Python integers are unbounded, hence [Z]; tuples of two
    integers are pairs; Python lists are lists.  Mutation of [self] is
    explicit state passing, exceptions and the consumption of random numbers
    are carried by a small outcome monad. *)

From Stdlib Require Import ZArith List Bool Lia.
Import ListNotations.
Open Scope Z_scope.

(** ** Outcomes: normal return, a Python exception, or an exhausted
       supply of random draws *)

Inductive exn : Type :=
| ValueError          (* random.randint on an empty range *)
| IndexError          (* self.body[0] on an empty list *)
| ZeroDivisionError.  (* a // 0 *)

Inductive outcome (A : Type) : Type :=
| Ok (a : A)
| Raise (e : exn)
| OutOfDraws.

Arguments Ok {A} a.
Arguments Raise {A} e.
Arguments OutOfDraws {A}.

Definition bind {A B : Type} (m : outcome A) (k : A -> outcome B) : outcome B :=
  match m with
  | Ok a => k a
  | Raise e => Raise e
  | OutOfDraws => OutOfDraws
  end.

Notation "x <- m ;; k" := (bind m (fun x => k))
  (at level 61, m at next level, right associativity).
Notation "' pat <- m ;; k" := (bind m (fun x => match x with pat => k end))
  (at level 61, pat pattern, m at next level, right associativity).

(** Python's [a // b] on integers: floor division, which is [Z.div] for a
    divisor of either sign, and an exception for the divisor 0. *)
Definition floordiv (a b : Z) : outcome Z :=
  if b =? 0 then Raise ZeroDivisionError else Ok (a / b).

(** ** The random source

    [random.randint(lo, hi)] is driven by a tape of raw draws: every call
    consumes one raw integer and reduces it into [lo..hi].  Every value of the
    range is reachable (by the raw draw [v - lo]), an empty range raises
    [ValueError] before anything is consumed, as in Python, and an empty tape
    yields [OutOfDraws]. *)

Definition tape : Type := list Z.

Definition randint (lo hi : Z) (tp : tape) : outcome (Z * tape) :=
  if hi <? lo then Raise ValueError
  else match tp with
       | [] => OutOfDraws
       | v :: tp' => Ok (lo + v mod (hi - lo + 1), tp')
       end.

(** ** Cells and the game constants *)

Definition Cell : Type := (Z * Z)%type.

Definition cell_eqb (a b : Cell) : bool :=
  (fst a =? fst b) && (snd a =? snd b).

(** Python's [c in cells] on a list of tuples. *)
Definition cell_in (c : Cell) (cells : list Cell) : bool :=
  existsb (cell_eqb c) cells.

Definition MIN_CELL_SIZE : Z := 15.
Definition MAX_CELL_SIZE : Z := 35.
Definition PREFERRED_CELL_SIZE : Z := 24.
Definition MIN_GRID_SIZE : Z := 15.

Inductive Heading : Type := UP | DOWN | LEFT | RIGHT.

Definition DIRECTIONS (d : Heading) : Cell :=
  match d with
  | UP => (0, -1)
  | DOWN => (0, 1)
  | LEFT => (-1, 0)
  | RIGHT => (1, 0)
  end.

(** ** class Snake *)

Module Snake.

Record t : Type := mk {
  body : list Cell;
  direction : Cell;
  grow : bool;
  grid_width : Z;
  grid_height : Z
}.

(** The two divisions are by the literal 2 and cannot fail. *)
Definition __init__ (grid_width grid_height : Z) : t :=
  let start_x := grid_width / 2 in
  let start_y := grid_height / 2 in
  {| body := [(start_x, start_y); (start_x - 1, start_y); (start_x - 2, start_y)];
     direction := DIRECTIONS RIGHT;
     grow := false;
     grid_width := grid_width;
     grid_height := grid_height |}.

(** [insert(0, new_head)] followed by [pop()] unless [grow] is set; reading
    [self.body[0]] of an empty list raises. *)
Definition move (s : t) : outcome t :=
  match body s with
  | [] => Raise IndexError
  | (head_x, head_y) :: _ =>
      let new_head := (head_x + fst (direction s), head_y + snd (direction s)) in
      let inserted := new_head :: body s in
      if negb (grow s)
      then Ok {| body := removelast inserted; direction := direction s;
                 grow := grow s;
                 grid_width := grid_width s; grid_height := grid_height s |}
      else Ok {| body := inserted; direction := direction s;
                 grow := false;
                 grid_width := grid_width s; grid_height := grid_height s |}
  end.

Definition change_direction (s : t) (new_direction : Cell) : t :=
  if negb (cell_eqb (fst (direction s) * -1, snd (direction s) * -1) new_direction)
  then {| body := body s; direction := new_direction; grow := grow s;
          grid_width := grid_width s; grid_height := grid_height s |}
  else s.

(** The method returns a boolean; the snake it was called on is returned
    alongside so that what the call leaves behind can be stated. *)
Definition check_collision (s : t) : outcome (bool * t) :=
  match body s with
  | [] => Raise IndexError
  | (head_x, head_y) :: rest =>
      if (head_x <? 0) || (head_x >=? grid_width s)
         || (head_y <? 0) || (head_y >=? grid_height s)
      then Ok (true, s)
      else if cell_in (head_x, head_y) rest
      then Ok (true, s)
      else Ok (false, s)
  end.

Definition eat_food (s : t) : t :=
  {| body := body s; direction := direction s; grow := true;
     grid_width := grid_width s; grid_height := grid_height s |}.

Definition update_grid_size (s : t) (new_grid_width new_grid_height : Z) : t :=
  {| body := body s; direction := direction s; grow := grow s;
     grid_width := new_grid_width; grid_height := new_grid_height |}.

End Snake.

(** ** class Food *)

Module Food.

Record t : Type := mk {
  grid_width : Z;
  grid_height : Z;
  position : Cell
}.

(** [generate_position] reads only the two grid dimensions, which is what lets
    [__init__] call it before [position] exists. *)
Definition generate_position (grid_width grid_height : Z) (tp : tape)
  : outcome (Cell * tape) :=
  '(x, tp1) <- randint 0 (grid_width - 1) tp ;;
  '(y, tp2) <- randint 0 (grid_height - 1) tp1 ;;
  Ok ((x, y), tp2).

Definition __init__ (grid_width grid_height : Z) (tp : tape) : outcome (t * tape) :=
  '(p, tp') <- generate_position grid_width grid_height tp ;;
  Ok ({| grid_width := grid_width; grid_height := grid_height; position := p |}, tp').

(** The [while True] loop of [respawn], one pass per unit of [fuel]. *)
Fixpoint respawn_loop (fuel : nat) (f : t) (snake_body : list Cell) (tp : tape)
  : outcome (t * tape) :=
  match fuel with
  | O => OutOfDraws
  | S fuel' =>
      '(p, tp') <- generate_position (grid_width f) (grid_height f) tp ;;
      let f' := {| grid_width := grid_width f; grid_height := grid_height f;
                   position := p |} in
      if negb (cell_in p snake_body)
      then Ok (f', tp')
      else respawn_loop fuel' f' snake_body tp'
  end.

(** Every pass consumes two draws, so a tape of [n] draws cannot feed more than
    [n] passes: the loop stops on the tape, never on the fuel (see
    [respawn_loop_fuel] below). *)
Definition respawn (f : t) (snake_body : list Cell) (tp : tape) : outcome (t * tape) :=
  respawn_loop (S (length tp)) f snake_body tp.

Definition update_grid_size (f : t) (new_grid_width new_grid_height : Z) (tp : tape)
  : outcome (t * tape) :=
  '(p, tp') <- generate_position new_grid_width new_grid_height tp ;;
  Ok ({| grid_width := new_grid_width; grid_height := new_grid_height;
         position := p |}, tp').

End Food.

(** ** What the painter is given

    [QRect(x, y, w, h)], and Python's [range(0, n)]. *)

Record QRect : Type := mkQRect {
  rect_x : Z;
  rect_y : Z;
  rect_w : Z;
  rect_h : Z
}.

Definition range (n : Z) : list Z := map Z.of_nat (seq 0 (Z.to_nat n)).

(** ** class GameBoard

    Of the Qt widget only the state the simulation reads or writes is kept:
    the geometry fields, the game objects, the session bookkeeping, whether
    the 150 ms [QTimer] is running, and how often the [game_over] signal has
    been emitted.  Painting, [update()] and [setFocus()] touch none of it.
    [__init__] runs [init_game] before the widget can receive an event, so
    a board always has its [snake] and [food] attributes. *)

Inductive Key : Type :=
| Key_Up | Key_Down | Key_Left | Key_Right | Key_Space | Key_Other.

Module GameBoard.

Record t : Type := mk {
  cell_size : Z;
  grid_width : Z;
  grid_height : Z;
  board_width : Z;
  board_height : Z;
  snake : Snake.t;
  food : Food.t;
  score : Z;
  game_active : bool;
  timer_active : bool;
  game_over_emitted : nat
}.

Definition set_objects (b : t) (s : Snake.t) (f : Food.t) : t :=
  {| cell_size := cell_size b; grid_width := grid_width b;
     grid_height := grid_height b; board_width := board_width b;
     board_height := board_height b; snake := s; food := f;
     score := score b; game_active := game_active b;
     timer_active := timer_active b;
     game_over_emitted := game_over_emitted b |}.

Definition set_session (b : t) (sc : Z) (active : bool) : t :=
  {| cell_size := cell_size b; grid_width := grid_width b;
     grid_height := grid_height b; board_width := board_width b;
     board_height := board_height b; snake := snake b; food := food b;
     score := sc; game_active := active;
     timer_active := timer_active b;
     game_over_emitted := game_over_emitted b |}.

Definition set_timer (b : t) (running : bool) : t :=
  {| cell_size := cell_size b; grid_width := grid_width b;
     grid_height := grid_height b; board_width := board_width b;
     board_height := board_height b; snake := snake b; food := food b;
     score := score b; game_active := game_active b;
     timer_active := running;
     game_over_emitted := game_over_emitted b |}.

Definition set_geometry (b : t) (cs gw gh : Z) : t :=
  {| cell_size := cs; grid_width := gw; grid_height := gh;
     board_width := gw * cs; board_height := gh * cs;
     snake := snake b; food := food b;
     score := score b; game_active := game_active b;
     timer_active := timer_active b;
     game_over_emitted := game_over_emitted b |}.

Definition emit_game_over (b : t) : t :=
  {| cell_size := cell_size b; grid_width := grid_width b;
     grid_height := grid_height b; board_width := board_width b;
     board_height := board_height b; snake := snake b; food := food b;
     score := score b; game_active := game_active b;
     timer_active := timer_active b;
     game_over_emitted := S (game_over_emitted b) |}.

Definition calculate_dimensions (width height : Z) : outcome (Z * Z * Z) :=
  let available_width := width - 4 in
  let available_height := height - 4 in
  max_grid_width <- floordiv available_width MIN_CELL_SIZE ;;
  max_grid_height <- floordiv available_height MIN_CELL_SIZE ;;
  let max_grid_width := Z.max max_grid_width MIN_GRID_SIZE in
  let max_grid_height := Z.max max_grid_height MIN_GRID_SIZE in
  cell_size_w <- floordiv available_width max_grid_width ;;
  cell_size_h <- floordiv available_height max_grid_height ;;
  let cell_size := Z.min cell_size_w cell_size_h in
  let cell_size := Z.max MIN_CELL_SIZE (Z.min MAX_CELL_SIZE cell_size) in
  grid_width <- floordiv available_width cell_size ;;
  grid_height <- floordiv available_height cell_size ;;
  let grid_width := Z.max grid_width MIN_GRID_SIZE in
  let grid_height := Z.max grid_height MIN_GRID_SIZE in
  Ok (cell_size, grid_width, grid_height).

Definition init_game (b : t) (tp : tape) : outcome (t * tape) :=
  let s := Snake.__init__ (grid_width b) (grid_height b) in
  '(f, tp') <- Food.__init__ (grid_width b) (grid_height b) tp ;;
  Ok (set_session (set_objects b s f) 0 true, tp').

(** The constructor: preferred cell size, the minimum grid, a first
    [init_game] and a started timer. *)
Definition __init__ (tp : tape) : outcome (t * tape) :=
  let s := Snake.__init__ MIN_GRID_SIZE MIN_GRID_SIZE in
  '(f, tp') <- Food.__init__ MIN_GRID_SIZE MIN_GRID_SIZE tp ;;
  Ok ({| cell_size := PREFERRED_CELL_SIZE;
         grid_width := MIN_GRID_SIZE; grid_height := MIN_GRID_SIZE;
         board_width := MIN_GRID_SIZE * PREFERRED_CELL_SIZE;
         board_height := MIN_GRID_SIZE * PREFERRED_CELL_SIZE;
         snake := s; food := f; score := 0; game_active := true;
         timer_active := true; game_over_emitted := O |}, tp').

(** The [all(...)] test of [resizeEvent] on one body cell. *)
Definition pos_valid (new_grid_width new_grid_height : Z) (pos : Cell) : bool :=
  (0 <=? fst pos) && (fst pos <? new_grid_width)
  && (0 <=? snd pos) && (snd pos <? new_grid_height).

(** [width] and [height] are those of [event.size()].  On a constructed
    board [hasattr(self, 'snake') and hasattr(self, 'food')] holds; the branch
    for its failure would run the same [init_game] as the branch taken when
    the body does not fit, and could only be reached after [self.timer] and
    [self.game_active] had already been read. *)
Definition resizeEvent (b : t) (width height : Z) (tp : tape) : outcome (t * tape) :=
  '(new_cell_size, new_grid_width, new_grid_height) <-
    calculate_dimensions width height ;;
  if negb (new_cell_size =? cell_size b)
     || negb (new_grid_width =? grid_width b)
     || negb (new_grid_height =? grid_height b)
  then
    let was_running := timer_active b in
    let b := if was_running then set_timer b false else b in
    let old_game_active := game_active b in
    let old_score := score b in
    let b := set_geometry b new_cell_size new_grid_width new_grid_height in
    let snake_valid :=
      forallb (pos_valid new_grid_width new_grid_height) (Snake.body (snake b)) in
    '(b, tp) <-
       (if snake_valid then
          let s := Snake.update_grid_size (snake b) new_grid_width new_grid_height in
          '(f, tp) <- Food.update_grid_size (food b) new_grid_width new_grid_height tp ;;
          '(f, tp) <- Food.respawn f (Snake.body s) tp ;;
          Ok (set_objects b s f, tp)
        else init_game b tp) ;;
    let b := set_session b old_score old_game_active in
    let b := if was_running && game_active b then set_timer b true else b in
    Ok (b, tp)
  else Ok (b, tp).

(** The slot of the timer: one tick of the game. *)
Definition update_game (b : t) (tp : tape) : outcome (t * tape) :=
  if negb (game_active b) then Ok (b, tp)
  else
    s <- Snake.move (snake b) ;;
    let b := set_objects b s (food b) in
    '(collided, s) <- Snake.check_collision (snake b) ;;
    let b := set_objects b s (food b) in
    if collided then
      let b := set_session b (score b) false in
      let b := set_timer b false in
      Ok (emit_game_over b, tp)
    else
      match Snake.body (snake b) with
      | [] => Raise IndexError
      | head :: _ =>
          if cell_eqb head (Food.position (food b)) then
            let s := Snake.eat_food (snake b) in
            let b := set_objects b s (food b) in
            '(f, tp) <- Food.respawn (food b) (Snake.body (snake b)) tp ;;
            let b := set_objects b (snake b) f in
            Ok (set_session b (score b + 10) (game_active b), tp)
          else Ok (b, tp)
      end.

Definition restart_game (b : t) (tp : tape) : outcome (t * tape) :=
  '(b, tp) <- init_game b tp ;;
  Ok (set_timer b true, tp).

Definition change_direction (b : t) (d : Heading) : t :=
  set_objects b (Snake.change_direction (snake b) (DIRECTIONS d)) (food b).

Definition keyPressEvent (b : t) (key : Key) (tp : tape) : outcome (t * tape) :=
  match key with
  | Key_Up => Ok (change_direction b UP, tp)
  | Key_Down => Ok (change_direction b DOWN, tp)
  | Key_Left => Ok (change_direction b LEFT, tp)
  | Key_Right => Ok (change_direction b RIGHT, tp)
  | Key_Space =>
      if negb (game_active b) then restart_game b tp else Ok (b, tp)
  | Key_Other => Ok (b, tp)
  end.

(** The painting methods, by the geometry they hand to the painter; pens,
    brushes, fonts and render hints carry none of it. *)

(** The rectangles of [draw_grid], in drawing order. *)
Definition draw_grid (b : t) : list QRect :=
  flat_map (fun x =>
    map (fun y => mkQRect (x * cell_size b) (y * cell_size b)
                          (cell_size b) (cell_size b))
        (range (grid_height b)))
    (range (grid_width b)).

(** The rounded rectangles of [draw_snake], one per segment. *)
Definition draw_snake (b : t) : list QRect :=
  map (fun segment =>
         let x := fst segment * cell_size b in
         let y := snd segment * cell_size b in
         mkQRect (x + 1) (y + 1) (cell_size b - 2) (cell_size b - 2))
      (Snake.body (snake b)).

(** The bounding rectangle of the ellipse of [draw_food]. *)
Definition draw_food (b : t) : QRect :=
  let x := fst (Food.position (food b)) * cell_size b in
  let y := snd (Food.position (food b)) * cell_size b in
  mkQRect (x + 2) (y + 2) (cell_size b - 4) (cell_size b - 4).

(** What [paintEvent] draws on a widget of the given size: the origin the
    painter is translated to, the background rectangle, the grid, the food,
    the snake, and, over a finished game, the overlay of [draw_game_over],
    which covers the widget from its own origin. *)
Record painting : Type := mkPainting {
  origin : Z * Z;
  background : QRect;
  grid_rects : list QRect;
  food_rect : QRect;
  snake_rects : list QRect;
  overlay : option QRect
}.

Definition paintEvent (b : t) (widget_width widget_height : Z) : painting :=
  let offset_x := (widget_width - board_width b) / 2 in
  let offset_y := (widget_height - board_height b) / 2 in
  {| origin := (offset_x, offset_y);
     background := mkQRect 0 0 (board_width b) (board_height b);
     grid_rects := draw_grid b;
     food_rect := draw_food b;
     snake_rects := draw_snake b;
     overlay := if negb (game_active b)
                then Some (mkQRect 0 0 widget_width widget_height)
                else None |}.

End GameBoard.

(** ** The event loop: timer ticks, key presses and resize notifications *)

Inductive event : Type :=
| Tick
| KeyPress (key : Key)
| Resize (width height : Z).

Definition handle (b : GameBoard.t) (e : event) (tp : tape)
  : outcome (GameBoard.t * tape) :=
  match e with
  | Tick => GameBoard.update_game b tp
  | KeyPress key => GameBoard.keyPressEvent b key tp
  | Resize width height => GameBoard.resizeEvent b width height tp
  end.

Fixpoint run (b : GameBoard.t) (events : list event) (tp : tape)
  : outcome (GameBoard.t * tape) :=
  match events with
  | [] => Ok (b, tp)
  | e :: events' => '(b', tp') <- handle b e tp ;; run b' events' tp'
  end.

(** A session: construct the board, then deliver the events in order. *)
Definition play (events : list event) (tp : tape) : outcome (GameBoard.t * tape) :=
  '(b, tp') <- GameBoard.__init__ tp ;; run b events tp'.

(** ** class SnakeGameWindow

    The window owns the board, the score label and the 100 ms timer that
    refreshes the label.  The label text is a fixed prefix followed by the
    score in decimal; [score_label] is the score it shows.  The board's
    [game_over] signal is connected to [on_game_over], which runs inside the
    emitting call. *)

Module SnakeGameWindow.

Record t : Type := mk {
  game_board : GameBoard.t;
  score_label : Z;
  score_timer_active : bool
}.

Definition init_ui (tp : tape) : outcome (t * tape) :=
  '(b, tp') <- GameBoard.__init__ tp ;;
  Ok ({| game_board := b; score_label := 0; score_timer_active := true |}, tp').

Definition __init__ (tp : tape) : outcome (t * tape) := init_ui tp.

Definition update_score (w : t) : t :=
  {| game_board := game_board w;
     score_label := GameBoard.score (game_board w);
     score_timer_active := score_timer_active w |}.

Definition on_game_over (w : t) : t :=
  {| game_board := game_board w;
     score_label := score_label w;
     score_timer_active := false |}.

End SnakeGameWindow.

(** The events of the window: those of the board, and the timeout of the
    score timer, which a stopped timer does not deliver. *)
Inductive window_event : Type :=
| BoardEvent (e : event)
| ScoreTimeout.

Definition deliver (w : SnakeGameWindow.t) (ev : window_event) (tp : tape)
  : outcome (SnakeGameWindow.t * tape) :=
  match ev with
  | ScoreTimeout =>
      if SnakeGameWindow.score_timer_active w
      then Ok (SnakeGameWindow.update_score w, tp)
      else Ok (w, tp)
  | BoardEvent e =>
      '(b', tp') <- handle (SnakeGameWindow.game_board w) e tp ;;
      let emitted :=
        (GameBoard.game_over_emitted b'
         - GameBoard.game_over_emitted (SnakeGameWindow.game_board w))%nat in
      let w' := {| SnakeGameWindow.game_board := b';
                   SnakeGameWindow.score_label := SnakeGameWindow.score_label w;
                   SnakeGameWindow.score_timer_active :=
                     SnakeGameWindow.score_timer_active w |} in
      Ok (Nat.iter emitted SnakeGameWindow.on_game_over w', tp')
  end.

Fixpoint run_window (w : SnakeGameWindow.t) (events : list window_event) (tp : tape)
  : outcome (SnakeGameWindow.t * tape) :=
  match events with
  | [] => Ok (w, tp)
  | ev :: events' => '(w', tp') <- deliver w ev tp ;; run_window w' events' tp'
  end.

Definition play_window (events : list window_event) (tp : tape)
  : outcome (SnakeGameWindow.t * tape) :=
  '(w, tp') <- SnakeGameWindow.__init__ tp ;; run_window w events tp'.

(** ** Scenario states *)

(** Scenario C: a five-cell body about to move up into the cell its last
    segment occupies, on a 20 x 20 grid, with no growth pending. *)
Definition scenario_C : Snake.t :=
  {| Snake.body := [(5, 5); (5, 6); (5, 7); (5, 8); (5, 4)];
     Snake.direction := DIRECTIONS UP;
     Snake.grow := false;
     Snake.grid_width := 20;
     Snake.grid_height := 20 |}.

(** The same body with growth pending, so that the move keeps the tail. *)
Definition scenario_C_growing : Snake.t := Snake.eat_food scenario_C.

(** Scenario A: 20 x 20 grid, body (10,10),(9,10),(8,10) heading right, the
    food one cell ahead of the head. *)
Definition scenario_A : GameBoard.t :=
  {| GameBoard.cell_size := 15;
     GameBoard.grid_width := 20; GameBoard.grid_height := 20;
     GameBoard.board_width := 300; GameBoard.board_height := 300;
     GameBoard.snake := Snake.__init__ 20 20;
     GameBoard.food :=
       {| Food.grid_width := 20; Food.grid_height := 20;
          Food.position := (11, 10) |};
     GameBoard.score := 0; GameBoard.game_active := true;
     GameBoard.timer_active := true; GameBoard.game_over_emitted := O |}.

(** Scenario B: 10 x 10 grid, head at (9,5) heading right. *)
Definition scenario_B : GameBoard.t :=
  {| GameBoard.cell_size := 15;
     GameBoard.grid_width := 10; GameBoard.grid_height := 10;
     GameBoard.board_width := 150; GameBoard.board_height := 150;
     GameBoard.snake :=
       {| Snake.body := [(9, 5); (8, 5); (7, 5)];
          Snake.direction := DIRECTIONS RIGHT; Snake.grow := false;
          Snake.grid_width := 10; Snake.grid_height := 10 |};
     GameBoard.food :=
       {| Food.grid_width := 10; Food.grid_height := 10;
          Food.position := (2, 2) |};
     GameBoard.score := 30; GameBoard.game_active := true;
     GameBoard.timer_active := true; GameBoard.game_over_emitted := O |}.

(** The resize scenario: an active session with score 40 on a 20 x 20 grid
    of 15-pixel cells; a widget of 454 x 454 pixels derives a 30 x 30 grid. *)
Definition scenario_resize : GameBoard.t :=
  {| GameBoard.cell_size := 15;
     GameBoard.grid_width := 20; GameBoard.grid_height := 20;
     GameBoard.board_width := 300; GameBoard.board_height := 300;
     GameBoard.snake :=
       {| Snake.body := [(12, 10); (11, 10); (10, 10); (9, 10); (8, 10);
                         (7, 10); (6, 10)];
          Snake.direction := DIRECTIONS RIGHT; Snake.grow := false;
          Snake.grid_width := 20; Snake.grid_height := 20 |};
     GameBoard.food :=
       {| Food.grid_width := 20; Food.grid_height := 20;
          Food.position := (3, 17) |};
     GameBoard.score := 40; GameBoard.game_active := true;
     GameBoard.timer_active := true; GameBoard.game_over_emitted := O |}.

(** ** Vocabulary of the properties *)

Definition opposite (d : Cell) : Cell := (fst d * -1, snd d * -1).

Definition add_cell (c d : Cell) : Cell := (fst c + fst d, snd c + snd d).

Definition sub_cell (c d : Cell) : Cell := (fst c - fst d, snd c - snd d).

Definition perpendicular (a b : Cell) : Prop :=
  fst a * fst b + snd a * snd b = 0.

(** The head lies outside [0, width) x [0, height). *)
Definition outside (w h : Z) (c : Cell) : Prop :=
  fst c < 0 \/ w <= fst c \/ snd c < 0 \/ h <= snd c.

Definition in_bounds (w h : Z) (c : Cell) : Prop :=
  0 <= fst c < w /\ 0 <= snd c < h.

(** A straight body: [n] cells, each one step behind the previous one along
    the direction of travel [d]. *)
Fixpoint straight (head d : Cell) (n : nat) : list Cell :=
  match n with
  | O => []
  | S n' => head :: straight (sub_cell head d) d n'
  end.

(** The tapes on which the loop of [respawn] ends: some draw pair at an even
    offset lands outside the snake. *)
Fixpoint has_free_draw (gw gh : Z) (snake_body : list Cell) (tp : tape) : bool :=
  match tp with
  | x :: y :: tp' =>
      negb (cell_in (x mod gw, y mod gh) snake_body)
      || has_free_draw gw gh snake_body tp'
  | _ => false
  end.

(** The snake after [move], for a body with head [h]. *)
Definition moved (s : Snake.t) (h : Cell) : Snake.t :=
  {| Snake.body :=
       add_cell h (Snake.direction s)
       :: (if Snake.grow s then Snake.body s else removelast (Snake.body s));
     Snake.direction := Snake.direction s;
     Snake.grow := false;
     Snake.grid_width := Snake.grid_width s;
     Snake.grid_height := Snake.grid_height s |}.

(** The answer of [check_collision] on that snake. *)
Definition collides (s : Snake.t) (h : Cell) : bool :=
  let nh := add_cell h (Snake.direction s) in
  (fst nh <? 0) || (fst nh >=? Snake.grid_width s)
  || (snd nh <? 0) || (snd nh >=? Snake.grid_height s)
  || cell_in nh (if Snake.grow s then Snake.body s else removelast (Snake.body s)).

(** The test that guards the body of [resizeEvent]. *)
Definition changed (b : GameBoard.t) (cs gw gh : Z) : bool :=
  negb (cs =? GameBoard.cell_size b)
  || negb (gw =? GameBoard.grid_width b)
  || negb (gh =? GameBoard.grid_height b).

(** The board a resize to [(cs, gw, gh)] leaves behind, given the snake and
    the food it ends with: the old score and activity are written back, and
    the timer runs again only if it ran before and the game is active. *)
Definition resized (b : GameBoard.t) (cs gw gh : Z) (s : Snake.t) (f : Food.t)
  : GameBoard.t :=
  {| GameBoard.cell_size := cs;
     GameBoard.grid_width := gw; GameBoard.grid_height := gh;
     GameBoard.board_width := gw * cs; GameBoard.board_height := gh * cs;
     GameBoard.snake := s; GameBoard.food := f;
     GameBoard.score := GameBoard.score b;
     GameBoard.game_active := GameBoard.game_active b;
     GameBoard.timer_active := GameBoard.timer_active b && GameBoard.game_active b;
     GameBoard.game_over_emitted := GameBoard.game_over_emitted b |}.

Definition body_in_grid (b : GameBoard.t) : Prop :=
  Forall (in_bounds (GameBoard.grid_width b) (GameBoard.grid_height b))
         (Snake.body (GameBoard.snake b)).

(** What every board reached from the constructor satisfies: the grid is at
    least 15 x 15, the snake and the food carry the dimensions of the board,
    the body is not empty, and the body of an active game lies inside the
    grid. *)
Record wf (b : GameBoard.t) : Prop := {
  wf_width : MIN_GRID_SIZE <= GameBoard.grid_width b;
  wf_height : MIN_GRID_SIZE <= GameBoard.grid_height b;
  wf_snake_width : Snake.grid_width (GameBoard.snake b) = GameBoard.grid_width b;
  wf_snake_height : Snake.grid_height (GameBoard.snake b) = GameBoard.grid_height b;
  wf_food_width : Food.grid_width (GameBoard.food b) = GameBoard.grid_width b;
  wf_food_height : Food.grid_height (GameBoard.food b) = GameBoard.grid_height b;
  wf_body : Snake.body (GameBoard.snake b) <> [];
  wf_bounds : GameBoard.game_active b = true -> body_in_grid b
}.

(** Two cells one step apart along one axis. *)
Definition adjacent (a b : Cell) : bool :=
  Z.abs (fst a - fst b) + Z.abs (snd a - snd b) =? 1.

(** Every cell of the list is adjacent to the next one. *)
Fixpoint chain (cells : list Cell) : bool :=
  match cells with
  | [] => true
  | a :: rest =>
      match rest with
      | [] => true
      | b :: _ => adjacent a b && chain rest
      end
  end.

Definition is_resize (e : event) : bool :=
  match e with
  | Resize _ _ => true
  | _ => false
  end.

(** The rectangle [r] lies within the rectangle at [(x, y)] of size
    [w] x [h]. *)
Definition rect_within (r : QRect) (x y w h : Z) : Prop :=
  x <= rect_x r /\ rect_x r + rect_w r <= x + w
  /\ y <= rect_y r /\ rect_y r + rect_h r <= y + h.

(** A one-cell grid wholly occupied by a one-cell snake. *)
Definition full_grid_food : Food.t :=
  {| Food.grid_width := 1; Food.grid_height := 1; Food.position := (0, 0) |}.

(** ** Properties kept along a session *)

(** The game timer runs exactly while the game is active. *)
Definition timer_follows (b : GameBoard.t) : Prop :=
  GameBoard.timer_active b = GameBoard.game_active b.

(** The board measures its grid times its cell size, and the cell size is 15,
    or still the preferred 24 of a board that has the constructor's grid. *)
Definition geometry_ok (b : GameBoard.t) : Prop :=
  GameBoard.board_width b = GameBoard.grid_width b * GameBoard.cell_size b
  /\ GameBoard.board_height b = GameBoard.grid_height b * GameBoard.cell_size b
  /\ (GameBoard.cell_size b = 15
      \/ (GameBoard.cell_size b = 24
          /\ GameBoard.grid_width b = 15 /\ GameBoard.grid_height b = 15)).

Definition food_in_grid (b : GameBoard.t) : Prop :=
  in_bounds (GameBoard.grid_width b) (GameBoard.grid_height b)
            (Food.position (GameBoard.food b)).

Definition shape_ok (b : GameBoard.t) : Prop :=
  (exists d : Heading, Snake.direction (GameBoard.snake b) = DIRECTIONS d)
  /\ chain (Snake.body (GameBoard.snake b)) = true
  /\ (3 <= length (Snake.body (GameBoard.snake b)))%nat.

Definition simple_body (b : GameBoard.t) : Prop :=
  GameBoard.game_active b = true -> NoDup (Snake.body (GameBoard.snake b)).

Definition score_ok (b : GameBoard.t) : Prop :=
  0 <= GameBoard.score b /\ GameBoard.score b mod 10 = 0.

(** Ten points per cell gained, the cell still owed included. *)
Definition score_tracks_length (b : GameBoard.t) : Prop :=
  GameBoard.score b =
    10 * (Z.of_nat (length (Snake.body (GameBoard.snake b))) - 3)
    + (if Snake.grow (GameBoard.snake b) then 10 else 0).

Definition food_off_body (b : GameBoard.t) : Prop :=
  ~ In (Food.position (GameBoard.food b)) (Snake.body (GameBoard.snake b)).

(** Timer ticks and the four arrow keys. *)
Definition is_steering (e : event) : bool :=
  match e with
  | Tick => true
  | KeyPress Key_Space => false
  | KeyPress _ => true
  | Resize _ _ => false
  end.

(** Every draw pair of the tape lands on the snake. *)
Fixpoint all_on_body (gw gh : Z) (snake_body : list Cell) (tp : tape) : bool :=
  match tp with
  | [] => true
  | [_] => false
  | x :: y :: tp' =>
      cell_in (x mod gw, y mod gh) snake_body
      && all_on_body gw gh snake_body tp'
  end.

Definition is_restart_key (e : event) : bool :=
  match e with
  | KeyPress Key_Space => true
  | _ => false
  end.

(** ** Basic facts *)

Lemma cell_eqb_eq (a b : Cell) : cell_eqb a b = true <-> a = b.
Proof.
  destruct a as [ax ay], b as [bx b_y]; unfold cell_eqb; simpl.
  rewrite andb_true_iff, !Z.eqb_eq. split.
  - intros [-> ->]; reflexivity.
  - intros E; injection E; auto.
Qed.

Lemma cell_eqb_refl (a : Cell) : cell_eqb a a = true.
Proof. apply cell_eqb_eq; reflexivity. Qed.

Lemma cell_eqb_neq (a b : Cell) : cell_eqb a b = false <-> a <> b.
Proof.
  rewrite <- cell_eqb_eq. destruct (cell_eqb a b); split; congruence.
Qed.

Lemma cell_in_In (c : Cell) (cells : list Cell) :
  cell_in c cells = true <-> In c cells.
Proof.
  unfold cell_in. rewrite existsb_exists. split.
  - intros [x [Hx E]]. apply cell_eqb_eq in E. subst; assumption.
  - intros H. exists c. split; [assumption | apply cell_eqb_refl].
Qed.

Lemma cell_in_not_In (c : Cell) (cells : list Cell) :
  cell_in c cells = false <-> ~ In c cells.
Proof.
  rewrite <- cell_in_In. destruct (cell_in c cells); split; congruence.
Qed.

Lemma removelast_length {A : Type} (x : A) (l : list A) :
  length (removelast (x :: l)) = length l.
Proof.
  revert x; induction l as [|y l IH]; intros x; [reflexivity|].
  change (removelast (x :: y :: l)) with (x :: removelast (y :: l)).
  cbn [length]. now rewrite IH.
Qed.

Lemma removelast_incl {A : Type} (l : list A) (x : A) :
  In x (removelast l) -> In x l.
Proof.
  induction l as [|y l IH]; [simpl; tauto|].
  destruct l as [|z l]; [simpl; tauto|].
  change (removelast (y :: z :: l)) with (y :: removelast (z :: l)).
  intros [E|H]; [left; assumption | right; apply IH; assumption].
Qed.

Lemma In_tail_index {A : Type} (h : A) (tl : list A) :
  In h tl <-> exists i, i <> O /\ nth_error (h :: tl) i = Some h.
Proof.
  split.
  - intros H. apply In_nth_error in H. destruct H as [n Hn].
    exists (S n). split; [discriminate | exact Hn].
  - intros [i [Hi Hn]]. destruct i as [|i]; [congruence|].
    simpl in Hn. eapply nth_error_In; eassumption.
Qed.

(** ** Snake.move *)

Lemma move_cons (s : Snake.t) (h : Cell) (tl : list Cell) :
  Snake.body s = h :: tl ->
  Snake.move s =
    Ok {| Snake.body :=
            add_cell h (Snake.direction s)
            :: (if Snake.grow s then Snake.body s else removelast (Snake.body s));
          Snake.direction := Snake.direction s;
          Snake.grow := false;
          Snake.grid_width := Snake.grid_width s;
          Snake.grid_height := Snake.grid_height s |}.
Proof.
  intros Hb. unfold Snake.move. rewrite Hb. destruct h as [hx hy].
  destruct (Snake.grow s) eqn:G; simpl; [reflexivity|].
  destruct tl; reflexivity.
Qed.

(** C5: [Snake.move] puts [head + direction] in front of the body; without
    pending growth the last cell is dropped and the length is kept, with
    pending growth nothing is dropped, the length grows by one and the flag is
    cleared.  The move succeeds on every non-empty body and its result does
    not depend on the grid dimensions: nothing is checked against the bounds
    or against the body. *)
Theorem move_spec (s : Snake.t) (h : Cell) (tl : list Cell) :
  Snake.body s = h :: tl ->
  exists s',
    Snake.move s = Ok s'
    /\ hd_error (Snake.body s') = Some (add_cell h (Snake.direction s))
    /\ (Snake.grow s = false ->
        Snake.body s' = add_cell h (Snake.direction s) :: removelast (Snake.body s)
        /\ length (Snake.body s') = length (Snake.body s)
        /\ Snake.grow s' = false)
    /\ (Snake.grow s = true ->
        Snake.body s' = add_cell h (Snake.direction s) :: Snake.body s
        /\ length (Snake.body s') = S (length (Snake.body s))
        /\ Snake.grow s' = false)
    /\ Snake.direction s' = Snake.direction s
    /\ Snake.grid_width s' = Snake.grid_width s
    /\ Snake.grid_height s' = Snake.grid_height s
    /\ (forall w' h', Snake.move (Snake.update_grid_size s w' h')
                      = Ok (Snake.update_grid_size s' w' h')).
Proof.
  intros Hb. eexists. split; [apply (move_cons s h tl Hb)|].
  simpl. repeat split.
  - rewrite H; reflexivity.
  - rewrite H, Hb. simpl length. f_equal.
    pose proof (removelast_length h tl) as L. simpl in L |- *. exact L.
  - rewrite H; reflexivity.
  - rewrite H; reflexivity.
  - intros w' h'.
    rewrite (move_cons (Snake.update_grid_size s w' h') h tl Hb). reflexivity.
Qed.

Lemma move_spec_witness :
  exists s', Snake.move scenario_C = Ok s'
             /\ Snake.body s' = [(5, 4); (5, 5); (5, 6); (5, 7); (5, 8)].
Proof.
  destruct (move_spec scenario_C (5, 5) [(5, 6); (5, 7); (5, 8); (5, 4)] eq_refl)
    as [s' [Hm [_ [Hf _]]]].
  exists s'. split; [exact Hm|]. destruct (Hf eq_refl) as [Hbody _]. exact Hbody.
Defined.

(** ** Snake.check_collision *)

Lemma outside_test (w h : Z) (c : Cell) :
  (fst c <? 0) || (fst c >=? w) || (snd c <? 0) || (snd c >=? h) = true
  <-> outside w h c.
Proof.
  unfold outside. rewrite !orb_true_iff, !Z.ltb_lt, !Z.geb_le. tauto.
Qed.

Lemma check_collision_cons (s : Snake.t) (h : Cell) (tl : list Cell) :
  Snake.body s = h :: tl ->
  Snake.check_collision s =
    Ok ((fst h <? 0) || (fst h >=? Snake.grid_width s)
        || (snd h <? 0) || (snd h >=? Snake.grid_height s)
        || cell_in h tl, s).
Proof.
  intros Hb. unfold Snake.check_collision. rewrite Hb.
  destruct h as [hx hy]. simpl fst; simpl snd.
  destruct ((hx <? 0) || (hx >=? Snake.grid_width s)
            || (hy <? 0) || (hy >=? Snake.grid_height s)); simpl.
  - reflexivity.
  - destruct (cell_in (hx, hy) tl); reflexivity.
Qed.

Lemma check_collision_true_iff (s : Snake.t) (h : Cell) (tl : list Cell) :
  Snake.body s = h :: tl ->
  Snake.check_collision s = Ok (true, s)
  <-> outside (Snake.grid_width s) (Snake.grid_height s) h \/ In h tl.
Proof.
  intros Hb. rewrite (check_collision_cons s h tl Hb).
  rewrite <- outside_test, <- cell_in_In, <- orb_true_iff.
  destruct ((fst h <? 0) || (fst h >=? Snake.grid_width s)
            || (snd h <? 0) || (snd h >=? Snake.grid_height s)
            || cell_in h tl); split; congruence.
Qed.

Lemma check_collision_false_iff (s : Snake.t) (h : Cell) (tl : list Cell) :
  Snake.body s = h :: tl ->
  Snake.check_collision s = Ok (false, s)
  <-> in_bounds (Snake.grid_width s) (Snake.grid_height s) h /\ ~ In h tl.
Proof.
  intros Hb. rewrite (check_collision_cons s h tl Hb).
  rewrite <- cell_in_not_In. unfold in_bounds.
  destruct (cell_in h tl); simpl.
  - rewrite orb_true_r. split; [discriminate | intros [_ H]; discriminate].
  - rewrite orb_false_r.
    destruct ((fst h <? 0) || (fst h >=? Snake.grid_width s)
              || (snd h <? 0) || (snd h >=? Snake.grid_height s)) eqn:E.
    + apply outside_test in E. unfold outside in E.
      split; [discriminate | intros [[? ?] _]; lia].
    + split; [intros _ | reflexivity]. split; [|reflexivity].
      rewrite !orb_false_iff, !Z.ltb_ge, Z.geb_leb, Z.geb_leb, !Z.leb_gt in E. lia.
Qed.

(** On a non-empty body [check_collision] returns, its answer is [true]
    exactly when the head is outside the grid or equals the cell at some index
    other than 0, and the snake is left as it was. *)
Lemma check_collision_spec (s : Snake.t) (h : Cell) (tl : list Cell) :
  Snake.body s = h :: tl ->
  exists c,
    Snake.check_collision s = Ok (c, s)
    /\ (c = true <->
        outside (Snake.grid_width s) (Snake.grid_height s) h
        \/ exists i, i <> O /\ nth_error (Snake.body s) i = Some h).
Proof.
  intros Hb. eexists. split; [apply (check_collision_cons s h tl Hb)|].
  rewrite Hb, <- In_tail_index, <- cell_in_In, <- outside_test.
  rewrite orb_true_iff. tauto.
Qed.

(** C6 (Scenario C, as amended): with growth pending the move up keeps the
    tail at (5,4), the new head lands on it and the collision is reported;
    together with the general characterisation above. *)
Theorem check_collision_scenario_C :
  (forall (s : Snake.t) (h : Cell) (tl : list Cell),
      Snake.body s = h :: tl ->
      exists c,
        Snake.check_collision s = Ok (c, s)
        /\ (c = true <->
            outside (Snake.grid_width s) (Snake.grid_height s) h
            \/ exists i, i <> O /\ nth_error (Snake.body s) i = Some h))
  /\ (exists s',
         Snake.move scenario_C_growing = Ok s'
         /\ Snake.body s' = [(5, 4); (5, 5); (5, 6); (5, 7); (5, 8); (5, 4)]
         /\ Snake.check_collision s' = Ok (true, s')).
Proof.
  split; [exact check_collision_spec|].
  eexists. split; [reflexivity|]. split; reflexivity.
Qed.

Lemma check_collision_scenario_C_witness :
  exists c, Snake.check_collision scenario_C = Ok (c, scenario_C)
            /\ (c = true <->
                outside 20 20 (5, 5)
                \/ exists i, i <> O
                             /\ nth_error (Snake.body scenario_C) i = Some (5, 5)).
Proof.
  exact (proj1 check_collision_scenario_C scenario_C (5, 5)
           [(5, 6); (5, 7); (5, 8); (5, 4)] eq_refl).
Defined.

(** C6 (counterexample): in Scenario C as the snake is normally found, with
    no growth pending, the move up drops the tail cell (5,4) before the head
    arrives there, and [check_collision] answers [False]. *)
Lemma scenario_C_no_collision :
  exists s',
    Snake.move scenario_C = Ok s'
    /\ Snake.body s' = [(5, 4); (5, 5); (5, 6); (5, 7); (5, 8)]
    /\ Snake.check_collision s' = Ok (false, s')
    /\ Snake.check_collision s' <> Ok (true, s').
Proof.
  eexists. split; [reflexivity|]. split; [reflexivity|].
  split; [reflexivity | discriminate].
Qed.

(** ** Snake.change_direction *)

Lemma change_direction_accept (s : Snake.t) (d : Cell) :
  d <> opposite (Snake.direction s) ->
  Snake.change_direction s d =
    {| Snake.body := Snake.body s; Snake.direction := d;
       Snake.grow := Snake.grow s;
       Snake.grid_width := Snake.grid_width s;
       Snake.grid_height := Snake.grid_height s |}.
Proof.
  intros Hd. unfold Snake.change_direction.
  fold (opposite (Snake.direction s)).
  destruct (cell_eqb (opposite (Snake.direction s)) d) eqn:E; [|reflexivity].
  apply cell_eqb_eq in E. congruence.
Qed.

Lemma change_direction_reject (s : Snake.t) :
  Snake.change_direction s (opposite (Snake.direction s)) = s.
Proof.
  unfold Snake.change_direction. fold (opposite (Snake.direction s)).
  now rewrite cell_eqb_refl.
Qed.

Lemma add_opposite (c d : Cell) : add_cell c (opposite d) = sub_cell c d.
Proof.
  unfold add_cell, opposite, sub_cell; simpl. f_equal; lia.
Qed.

(** C7: [change_direction] stores the requested direction unless it is the
    exact opposite of the stored one, in which case the snake is returned
    untouched.  Hence asking for the opposite direction and then moving is
    the same step as moving alone: the new head is [head + direction], and
    when the second cell is the one the snake came from it is not the cell
    the head moves onto. *)
Theorem change_direction_spec :
  (forall (s : Snake.t) (d : Cell),
      d <> opposite (Snake.direction s) ->
      Snake.change_direction s d =
        {| Snake.body := Snake.body s; Snake.direction := d;
           Snake.grow := Snake.grow s;
           Snake.grid_width := Snake.grid_width s;
           Snake.grid_height := Snake.grid_height s |})
  /\ (forall s : Snake.t,
         Snake.change_direction s (opposite (Snake.direction s)) = s)
  /\ (forall (s : Snake.t) (h n : Cell) (tl : list Cell),
         Snake.body s = h :: n :: tl ->
         let s0 := Snake.change_direction s (opposite (Snake.direction s)) in
         Snake.move s0 = Snake.move s
         /\ exists s',
             Snake.move s0 = Ok s'
             /\ hd_error (Snake.body s') = Some (add_cell h (Snake.direction s))
             /\ Snake.direction s' = Snake.direction s
             /\ (n = sub_cell h (Snake.direction s) ->
                 Snake.direction s <> (0, 0) ->
                 add_cell h (Snake.direction s) <> n)).
Proof.
  split; [exact change_direction_accept|].
  split; [exact change_direction_reject|].
  intros s h n tl Hb s0. subst s0. rewrite change_direction_reject.
  split; [reflexivity|].
  eexists. split; [apply (move_cons s h (n :: tl) Hb)|]. simpl.
  split; [reflexivity|].
  split; [reflexivity|].
  intros Hn Hd E. apply Hd. subst n.
  destruct h as [hx hy], (Snake.direction s) as [dx dy].
  unfold add_cell, sub_cell in E; simpl in E. injection E as Ex Ey.
  f_equal; lia.
Qed.

Lemma change_direction_spec_witness :
  Snake.change_direction (Snake.__init__ 15 15) (DIRECTIONS UP) =
    {| Snake.body := [(7, 7); (6, 7); (5, 7)]; Snake.direction := (0, -1);
       Snake.grow := false; Snake.grid_width := 15; Snake.grid_height := 15 |}
  /\ exists s',
      Snake.move (Snake.change_direction (Snake.__init__ 15 15) (DIRECTIONS LEFT))
        = Ok s'
      /\ hd_error (Snake.body s') = Some (8, 7)
      /\ (8, 7) <> (6, 7).
Proof.
  split.
  - apply (proj1 change_direction_spec (Snake.__init__ 15 15) (DIRECTIONS UP)).
    vm_compute. discriminate.
  - destruct (proj2 (proj2 change_direction_spec) (Snake.__init__ 15 15)
                (7, 7) (6, 7) [(5, 7)] eq_refl)
      as [_ [s' [Hm [Hh [_ Hn]]]]].
    exists s'. split; [exact Hm|]. split; [exact Hh|].
    apply Hn; [reflexivity | vm_compute; discriminate].
Defined.

(** ** Two turns within one tick *)

Lemma straight_length (h d : Cell) (n : nat) : length (straight h d n) = n.
Proof.
  revert h; induction n as [|n IH]; intros h; simpl; [reflexivity|].
  now rewrite IH.
Qed.

Lemma perpendicular_not_opposite (H P : Heading) :
  perpendicular (DIRECTIONS P) (DIRECTIONS H) ->
  DIRECTIONS P <> opposite (DIRECTIONS H)
  /\ opposite (DIRECTIONS H) <> opposite (DIRECTIONS P).
Proof.
  unfold perpendicular. destruct H, P; simpl; intros E;
    try discriminate; split; discriminate.
Qed.

(** C10: on a straight body of at least three cells travelling along [H],
    a turn to a perpendicular heading followed by a turn to the opposite of
    [H], with no move in between, are both accepted: the guard compares with
    the stored direction only.  The stored direction ends up opposite to [H]
    and the next move puts the head on the old second cell, which is still
    part of the body: [check_collision] answers [True]. *)
Theorem double_turn_reverses (s : Snake.t) (H P : Heading) (h : Cell) (n : nat) :
  (3 <= n)%nat ->
  Snake.body s = straight h (DIRECTIONS H) n ->
  Snake.direction s = DIRECTIONS H ->
  perpendicular (DIRECTIONS P) (DIRECTIONS H) ->
  let s1 := Snake.change_direction s (DIRECTIONS P) in
  let s2 := Snake.change_direction s1 (opposite (DIRECTIONS H)) in
  Snake.direction s1 = DIRECTIONS P
  /\ Snake.direction s2 = opposite (DIRECTIONS H)
  /\ Snake.body s2 = Snake.body s
  /\ exists s3,
      Snake.move s2 = Ok s3
      /\ hd_error (Snake.body s3) = Some (sub_cell h (DIRECTIONS H))
      /\ In (sub_cell h (DIRECTIONS H)) (tl (Snake.body s3))
      /\ Snake.check_collision s3 = Ok (true, s3).
Proof.
  intros Hn Hb Hd Hp s1 s2.
  destruct (perpendicular_not_opposite H P Hp) as [N1 N2].
  assert (E1 : s1 = {| Snake.body := Snake.body s; Snake.direction := DIRECTIONS P;
                       Snake.grow := Snake.grow s;
                       Snake.grid_width := Snake.grid_width s;
                       Snake.grid_height := Snake.grid_height s |}).
  { apply change_direction_accept. rewrite Hd. exact N1. }
  assert (E2 : s2 = {| Snake.body := Snake.body s;
                       Snake.direction := opposite (DIRECTIONS H);
                       Snake.grow := Snake.grow s;
                       Snake.grid_width := Snake.grid_width s;
                       Snake.grid_height := Snake.grid_height s |}).
  { subst s2. rewrite change_direction_accept; rewrite E1; simpl;
      [reflexivity | exact N2]. }
  rewrite E1, E2. simpl.
  split; [reflexivity|]. split; [reflexivity|]. split; [reflexivity|].
  destruct n as [|[|[|n]]]; try lia. simpl in Hb.
  set (d := DIRECTIONS H) in *.
  set (s2' := {| Snake.body := Snake.body s; Snake.direction := opposite d;
                 Snake.grow := Snake.grow s;
                 Snake.grid_width := Snake.grid_width s;
                 Snake.grid_height := Snake.grid_height s |}).
  assert (Hb2 : Snake.body s2' = h :: sub_cell h d
                  :: sub_cell (sub_cell h d) d
                  :: straight (sub_cell (sub_cell (sub_cell h d) d) d) d n)
    by exact Hb.
  eexists. split; [apply (move_cons s2' _ _ Hb2)|].
  simpl. rewrite add_opposite, Hb.
  assert (Hin : In (sub_cell h d)
                  (if Snake.grow s
                   then h :: sub_cell h d :: sub_cell (sub_cell h d) d
                        :: straight (sub_cell (sub_cell (sub_cell h d) d) d) d n
                   else removelast
                          (h :: sub_cell h d :: sub_cell (sub_cell h d) d
                           :: straight
                                (sub_cell (sub_cell (sub_cell h d) d) d) d n))).
  { destruct (Snake.grow s); simpl; auto. }
  split; [reflexivity|].
  split; [exact Hin|].
  match goal with
  | |- Snake.check_collision ?x = _ => set (s3 := x)
  end.
  apply (check_collision_true_iff s3 (sub_cell h d) _ eq_refl).
  right. exact Hin.
Qed.

Lemma double_turn_reverses_witness :
  exists s3,
    Snake.move (Snake.change_direction
                  (Snake.change_direction (Snake.__init__ 15 15) (DIRECTIONS UP))
                  (DIRECTIONS LEFT)) = Ok s3
    /\ Snake.check_collision s3 = Ok (true, s3).
Proof.
  destruct (double_turn_reverses (Snake.__init__ 15 15) RIGHT UP (7, 7) 3
              ltac:(lia) eq_refl eq_refl eq_refl)
    as [_ [_ [_ [s3 [Hm [_ [_ Hc]]]]]]].
  exists s3. split; [exact Hm | exact Hc].
Defined.

(** ** GameBoard.calculate_dimensions *)

Lemma floordiv_nonzero (a b : Z) : b <> 0 -> floordiv a b = Ok (a / b).
Proof.
  intros Hb. unfold floordiv. destruct (b =? 0) eqn:E; [|reflexivity].
  apply Z.eqb_eq in E. contradiction.
Qed.

(** The function returns for every pair of integers: none of its five
    divisors can be 0. *)
Lemma calculate_dimensions_total (width height : Z) :
  exists cell_size grid_width grid_height,
    GameBoard.calculate_dimensions width height
      = Ok (cell_size, grid_width, grid_height)
    /\ MIN_CELL_SIZE <= cell_size <= MAX_CELL_SIZE
    /\ grid_width = Z.max ((width - 4) / cell_size) MIN_GRID_SIZE
    /\ grid_height = Z.max ((height - 4) / cell_size) MIN_GRID_SIZE.
Proof.
  unfold GameBoard.calculate_dimensions.
  rewrite !(floordiv_nonzero _ MIN_CELL_SIZE) by (unfold MIN_CELL_SIZE; lia).
  cbn [bind].
  rewrite !(floordiv_nonzero _ (Z.max _ MIN_GRID_SIZE))
    by (unfold MIN_GRID_SIZE; lia).
  cbn [bind].
  rewrite !(floordiv_nonzero _ (Z.max MIN_CELL_SIZE _))
    by (unfold MIN_CELL_SIZE; lia).
  cbn [bind].
  do 3 eexists. split; [reflexivity|].
  unfold MIN_CELL_SIZE, MAX_CELL_SIZE. split; [lia|]. split; reflexivity.
Qed.

(** C9: for positive pixel sizes (and in fact for all integers)
    [calculate_dimensions] returns a result, a function of its two arguments
    alone; the cell size lies between 15 and 35, and each grid dimension is
    the available space (pixels minus the border allowance 4) divided by
    that cell size, raised to the minimum grid dimension 15 when smaller. *)
Theorem calculate_dimensions_spec (width height : Z) :
  0 < width -> 0 < height ->
  exists cell_size grid_width grid_height,
    GameBoard.calculate_dimensions width height
      = Ok (cell_size, grid_width, grid_height)
    /\ 15 <= cell_size <= 35
    /\ grid_width = Z.max ((width - 4) / cell_size) 15
    /\ grid_height = Z.max ((height - 4) / cell_size) 15
    /\ 15 <= grid_width /\ 15 <= grid_height.
Proof.
  intros _ _.
  destruct (calculate_dimensions_total width height)
    as [cs [gw [gh [E [Hc [Hw Hh]]]]]].
  exists cs, gw, gh. unfold MIN_CELL_SIZE, MAX_CELL_SIZE, MIN_GRID_SIZE in *.
  repeat split; try assumption; try lia.
Qed.

Lemma calculate_dimensions_spec_witness :
  GameBoard.calculate_dimensions 520 580 = Ok (15, 34, 38).
Proof.
  destruct (calculate_dimensions_spec 520 580 ltac:(lia) ltac:(lia))
    as [cs [gw [gh [E _]]]].
  rewrite E. vm_compute in E. injection E as <- <- <-. reflexivity.
Defined.

(** ** Food: drawing positions *)

Lemma randint_pos (n v : Z) (tp : tape) :
  0 < n -> randint 0 (n - 1) (v :: tp) = Ok (v mod n, tp).
Proof.
  intros Hn. unfold randint.
  destruct (n - 1 <? 0) eqn:E; [apply Z.ltb_lt in E; lia|].
  replace (n - 1 - 0 + 1) with n by lia. reflexivity.
Qed.

Lemma randint_nonpos (n : Z) (tp : tape) :
  n <= 0 -> randint 0 (n - 1) tp = Raise ValueError.
Proof.
  intros Hn. unfold randint.
  destruct (n - 1 <? 0) eqn:E; [reflexivity | apply Z.ltb_ge in E; lia].
Qed.

Lemma generate_position_cons (gw gh x y : Z) (tp : tape) :
  0 < gw -> 0 < gh ->
  Food.generate_position gw gh (x :: y :: tp) = Ok ((x mod gw, y mod gh), tp).
Proof.
  intros Hw Hh. unfold Food.generate_position.
  rewrite (randint_pos gw x) by assumption. cbn [bind].
  rewrite (randint_pos gh y) by assumption. reflexivity.
Qed.

Lemma generate_position_short (gw gh : Z) (tp : tape) :
  0 < gw -> 0 < gh -> (length tp < 2)%nat ->
  Food.generate_position gw gh tp = OutOfDraws.
Proof.
  intros Hw Hh Hl. destruct tp as [|x [|y tp]]; simpl in Hl; try lia.
  - unfold Food.generate_position, randint.
    destruct (gw - 1 <? 0) eqn:E; [apply Z.ltb_lt in E; lia | reflexivity].
  - unfold Food.generate_position.
    rewrite (randint_pos gw x) by assumption. cbn [bind]. unfold randint.
    destruct (gh - 1 <? 0) eqn:E; [apply Z.ltb_lt in E; lia | reflexivity].
Qed.

Lemma generate_position_inv (gw gh : Z) (tp tp' : tape) (p : Cell) :
  Food.generate_position gw gh tp = Ok (p, tp') ->
  0 < gw /\ 0 < gh
  /\ exists x y, tp = x :: y :: tp' /\ p = (x mod gw, y mod gh).
Proof.
  unfold Food.generate_position, randint. intros H.
  destruct (gw - 1 <? 0) eqn:E1; [discriminate|].
  destruct tp as [|x tp]; [discriminate|]. cbn [bind] in H.
  destruct (gh - 1 <? 0) eqn:E2; [discriminate|].
  destruct tp as [|y tp]; [discriminate|]. cbn [bind] in H.
  injection H as <- <-. apply Z.ltb_ge in E1, E2.
  split; [lia|]. split; [lia|]. exists x, y. split; [reflexivity|].
  replace (gw - 1 - 0 + 1) with gw by lia.
  replace (gh - 1 - 0 + 1) with gh by lia. reflexivity.
Qed.

Lemma generate_position_in_bounds (gw gh : Z) (tp tp' : tape) (p : Cell) :
  Food.generate_position gw gh tp = Ok (p, tp') -> in_bounds gw gh p.
Proof.
  intros H. apply generate_position_inv in H.
  destruct H as [Hw [Hh [x [y [_ ->]]]]]. unfold in_bounds; simpl.
  pose proof (Z.mod_pos_bound x gw Hw). pose proof (Z.mod_pos_bound y gh Hh).
  lia.
Qed.

Lemma generate_position_no_raise (gw gh : Z) (tp : tape) (e : exn) :
  0 < gw -> 0 < gh -> Food.generate_position gw gh tp <> Raise e.
Proof.
  intros Hw Hh. destruct tp as [|x [|y tp]].
  - rewrite generate_position_short by (simpl; lia). discriminate.
  - rewrite generate_position_short by (simpl; lia). discriminate.
  - rewrite generate_position_cons by assumption. discriminate.
Qed.

(** ** Food.respawn *)

Section Respawn.

Variable snake_body : list Cell.

Lemma respawn_loop_ok (fuel : nat) :
  forall (f f' : Food.t) (tp tp' : tape),
    Food.respawn_loop fuel f snake_body tp = Ok (f', tp') ->
    ~ In (Food.position f') snake_body
    /\ Food.grid_width f' = Food.grid_width f
    /\ Food.grid_height f' = Food.grid_height f
    /\ in_bounds (Food.grid_width f) (Food.grid_height f) (Food.position f').
Proof.
  induction fuel as [|fuel IH]; intros f f' tp tp' H; [discriminate|].
  simpl in H.
  destruct (Food.generate_position (Food.grid_width f) (Food.grid_height f) tp)
    as [[p tp1]| |] eqn:G; try discriminate.
  cbn [bind] in H.
  destruct (cell_in p snake_body) eqn:C; simpl in H.
  - apply IH in H. simpl in H. exact H.
  - injection H as <- <-. simpl. apply cell_in_not_In in C.
    apply generate_position_in_bounds in G. auto.
Qed.

(** Fuel beyond the length of the tape changes nothing. *)
Lemma respawn_loop_fuel (n : nat) :
  forall (m : nat) (f : Food.t) (tp : tape),
    (length tp < n)%nat -> (length tp < m)%nat ->
    Food.respawn_loop n f snake_body tp = Food.respawn_loop m f snake_body tp.
Proof.
  induction n as [|n IH]; intros m f tp Hn Hm; [lia|].
  destruct m as [|m]; [lia|]. simpl.
  destruct (Food.generate_position (Food.grid_width f) (Food.grid_height f) tp)
    as [[p tp1]| |] eqn:G; try reflexivity.
  cbn [bind]. destruct (cell_in p snake_body); simpl; [|reflexivity].
  apply generate_position_inv in G. destruct G as [_ [_ [x [y [-> _]]]]].
  simpl in Hn, Hm. apply IH; lia.
Qed.

Lemma respawn_loop_S (n : nat) (f : Food.t) (tp : tape) :
  Food.respawn_loop (S n) f snake_body tp =
    ('(p, tp') <- Food.generate_position (Food.grid_width f) (Food.grid_height f) tp ;;
     let f' := {| Food.grid_width := Food.grid_width f;
                  Food.grid_height := Food.grid_height f;
                  Food.position := p |} in
     if negb (cell_in p snake_body) then Ok (f', tp')
     else Food.respawn_loop n f' snake_body tp').
Proof. reflexivity. Qed.

(** One pass of the loop, as an equation on [respawn] itself. *)
Lemma respawn_unfold (f : Food.t) (tp : tape) :
  Food.respawn f snake_body tp =
    ('(p, tp') <- Food.generate_position (Food.grid_width f) (Food.grid_height f) tp ;;
     let f' := {| Food.grid_width := Food.grid_width f;
                  Food.grid_height := Food.grid_height f;
                  Food.position := p |} in
     if negb (cell_in p snake_body) then Ok (f', tp')
     else Food.respawn f' snake_body tp').
Proof.
  unfold Food.respawn at 1. rewrite respawn_loop_S.
  destruct (Food.generate_position (Food.grid_width f) (Food.grid_height f) tp)
    as [[p tp1]| |] eqn:G; try reflexivity.
  cbn [bind]. destruct (cell_in p snake_body); cbn [negb]; cbv iota zeta;
    [|reflexivity].
  apply generate_position_inv in G. destruct G as [_ [_ [x [y [-> _]]]]].
  unfold Food.respawn. apply respawn_loop_fuel; simpl; lia.
Qed.

Lemma respawn_ok (f f' : Food.t) (tp tp' : tape) :
  Food.respawn f snake_body tp = Ok (f', tp') ->
  ~ In (Food.position f') snake_body
  /\ Food.grid_width f' = Food.grid_width f
  /\ Food.grid_height f' = Food.grid_height f
  /\ in_bounds (Food.grid_width f) (Food.grid_height f) (Food.position f').
Proof. apply respawn_loop_ok. Qed.

Lemma respawn_loop_returns (fuel : nat) :
  forall (f : Food.t) (tp : tape),
    0 < Food.grid_width f -> 0 < Food.grid_height f ->
    (length tp < fuel)%nat ->
    (exists f' tp', Food.respawn_loop fuel f snake_body tp = Ok (f', tp'))
    <-> has_free_draw (Food.grid_width f) (Food.grid_height f) snake_body tp = true.
Proof.
  induction fuel as [|fuel IH]; intros f tp Hw Hh Hl; [lia|].
  destruct tp as [|x [|y tp]].
  - simpl. rewrite generate_position_short by (simpl; lia || assumption).
    simpl. split; [intros [f' [tp' E]]; discriminate | discriminate].
  - simpl. rewrite generate_position_short by (simpl; lia || assumption).
    simpl. split; [intros [f' [tp' E]]; discriminate | discriminate].
  - cbn [Food.respawn_loop has_free_draw].
    rewrite generate_position_cons by assumption. cbn [bind].
    destruct (cell_in (x mod Food.grid_width f, y mod Food.grid_height f) snake_body);
      simpl negb; cbv iota.
    + rewrite orb_false_l. simpl in Hl.
      rewrite IH by (simpl; assumption || lia). reflexivity.
    + rewrite orb_true_l. split; [reflexivity|]. intros _. eauto.
Qed.

(** [respawn] returns exactly on the tapes that hold a free draw. *)
Lemma respawn_returns (f : Food.t) (tp : tape) :
  0 < Food.grid_width f -> 0 < Food.grid_height f ->
  (exists f' tp', Food.respawn f snake_body tp = Ok (f', tp'))
  <-> has_free_draw (Food.grid_width f) (Food.grid_height f) snake_body tp = true.
Proof.
  intros Hw Hh. apply respawn_loop_returns; auto.
Qed.

Lemma respawn_loop_no_raise (fuel : nat) :
  forall (f : Food.t) (tp : tape) (e : exn),
    0 < Food.grid_width f -> 0 < Food.grid_height f ->
    Food.respawn_loop fuel f snake_body tp <> Raise e.
Proof.
  induction fuel as [|fuel IH]; intros f tp e Hw Hh; [discriminate|].
  simpl.
  destruct (Food.generate_position (Food.grid_width f) (Food.grid_height f) tp)
    as [[p tp1]| |] eqn:G.
  - cbn [bind]. destruct (cell_in p snake_body); simpl; [|discriminate].
    apply IH; assumption.
  - exfalso. exact (generate_position_no_raise _ _ _ _ Hw Hh G).
  - discriminate.
Qed.

End Respawn.

(** ** GameBoard.update_game *)

Lemma update_game_inactive (b : GameBoard.t) (tp : tape) :
  GameBoard.game_active b = false -> GameBoard.update_game b tp = Ok (b, tp).
Proof.
  intros H. unfold GameBoard.update_game. now rewrite H.
Qed.

Lemma update_game_active (b : GameBoard.t) (tp : tape) (h : Cell) (tl : list Cell) :
  GameBoard.game_active b = true ->
  Snake.body (GameBoard.snake b) = h :: tl ->
  let s := GameBoard.snake b in
  GameBoard.update_game b tp =
    if collides s h then
      Ok (GameBoard.emit_game_over
            (GameBoard.set_timer
               (GameBoard.set_session
                  (GameBoard.set_objects b (moved s h) (GameBoard.food b))
                  (GameBoard.score b) false)
               false), tp)
    else if cell_eqb (add_cell h (Snake.direction s))
                     (Food.position (GameBoard.food b)) then
      '(f, tp') <- Food.respawn (GameBoard.food b) (Snake.body (moved s h)) tp ;;
      Ok (GameBoard.set_session
            (GameBoard.set_objects b (Snake.eat_food (moved s h)) f)
            (GameBoard.score b + 10) true, tp')
    else Ok (GameBoard.set_objects b (moved s h) (GameBoard.food b), tp).
Proof.
  intros Ha Hb s. unfold GameBoard.update_game. rewrite Ha. cbn [negb].
  rewrite (move_cons _ h tl Hb). fold s. fold (moved s h). cbn [bind].
  cbn [GameBoard.set_objects GameBoard.snake GameBoard.food].
  rewrite (check_collision_cons (moved s h) _ _ eq_refl).
  cbn [bind]. unfold collides.
  cbn [moved Snake.grid_width Snake.grid_height].
  destruct ((fst (add_cell h (Snake.direction s)) <? 0)
            || (fst (add_cell h (Snake.direction s)) >=? Snake.grid_width s)
            || (snd (add_cell h (Snake.direction s)) <? 0)
            || (snd (add_cell h (Snake.direction s)) >=? Snake.grid_height s)
            || cell_in (add_cell h (Snake.direction s))
                 (if Snake.grow s then Snake.body s
                  else removelast (Snake.body s))) eqn:C.
  - reflexivity.
  - change (Snake.body (moved s h))
      with (add_cell h (Snake.direction s)
            :: (if Snake.grow s then Snake.body s else removelast (Snake.body s))).
    cbv iota.
    destruct (cell_eqb (add_cell h (Snake.direction s))
                (Food.position (GameBoard.food b))); [|reflexivity].
    change (Snake.body (Snake.eat_food (moved s h)))
      with (Snake.body (moved s h)).
    change (add_cell h (Snake.direction s)
            :: (if Snake.grow s then Snake.body s else removelast (Snake.body s)))
      with (Snake.body (moved s h)).
    destruct (Food.respawn (GameBoard.food b) (Snake.body (moved s h)) tp)
      as [[f tp']| |]; try reflexivity.
    cbn [bind GameBoard.set_objects GameBoard.game_active GameBoard.score].
    rewrite Ha. reflexivity.
Qed.

Lemma collides_false (s : Snake.t) (h : Cell) :
  collides s h = false ->
  in_bounds (Snake.grid_width s) (Snake.grid_height s)
    (add_cell h (Snake.direction s))
  /\ ~ In (add_cell h (Snake.direction s))
       (if Snake.grow s then Snake.body s else removelast (Snake.body s)).
Proof.
  unfold collides. cbv zeta. intros C.
  apply orb_false_iff in C. destruct C as [C1 C2].
  apply cell_in_not_In in C2. split; [|exact C2].
  rewrite !orb_false_iff, !Z.ltb_ge, Z.geb_leb, Z.geb_leb, !Z.leb_gt in C1.
  unfold in_bounds. lia.
Qed.

Lemma moved_length (s : Snake.t) (h : Cell) (tl : list Cell) :
  Snake.body s = h :: tl ->
  length (Snake.body (moved s h)) =
    (length (Snake.body s) + (if Snake.grow s then 1 else 0))%nat.
Proof.
  intros Hb. cbn [moved Snake.body]. destruct (Snake.grow s).
  - simpl. lia.
  - rewrite Hb. cbn [length]. rewrite removelast_length. simpl. lia.
Qed.

Lemma move_inv (s s1 : Snake.t) :
  Snake.move s = Ok s1 ->
  exists h tl, Snake.body s = h :: tl /\ s1 = moved s h.
Proof.
  intros H. destruct (Snake.body s) as [|h tl] eqn:Hb.
  - unfold Snake.move in H. rewrite Hb in H. discriminate.
  - rewrite (move_cons s h tl Hb) in H. injection H as <-.
    exists h, tl. split; reflexivity.
Qed.

Lemma check_collision_moved (s : Snake.t) (h : Cell) :
  Snake.check_collision (moved s h) = Ok (collides s h, moved s h).
Proof. apply (check_collision_cons (moved s h) _ _ eq_refl). Qed.

Lemma update_game_length (b b' : GameBoard.t) (tp tp' : tape) :
  GameBoard.update_game b tp = Ok (b', tp') ->
  (length (Snake.body (GameBoard.snake b))
   <= length (Snake.body (GameBoard.snake b')))%nat.
Proof.
  intros H. destruct (GameBoard.game_active b) eqn:Ha.
  2:{ rewrite update_game_inactive in H by assumption.
      injection H as <- <-. lia. }
  destruct (Snake.body (GameBoard.snake b)) as [|h tl] eqn:Hb.
  { unfold GameBoard.update_game, Snake.move in H. rewrite Ha, Hb in H.
    discriminate. }
  rewrite (update_game_active b tp h tl Ha Hb) in H. cbv zeta in H.
  pose proof (moved_length (GameBoard.snake b) h tl Hb) as L.
  rewrite Hb in L. cbn [length] in L |- *.
  destruct (collides (GameBoard.snake b) h).
  - injection H as <- <-. cbn. cbn in L. lia.
  - destruct (cell_eqb _ _).
    + destruct (Food.respawn _ _ tp) as [[f tp1]| |]; try discriminate.
      cbn [bind] in H. injection H as <- <-. cbn. cbn in L. lia.
    + injection H as <- <-. cbn. cbn in L. lia.
Qed.

(** On an active board a tick lengthens the body by exactly the growth that
    was pending before it, whether it ends in a collision, a meal or a plain
    advance. *)
Lemma update_game_active_length (b b' : GameBoard.t) (tp tp' : tape) :
  GameBoard.game_active b = true ->
  GameBoard.update_game b tp = Ok (b', tp') ->
  length (Snake.body (GameBoard.snake b')) =
    (length (Snake.body (GameBoard.snake b))
     + (if Snake.grow (GameBoard.snake b) then 1 else 0))%nat.
Proof.
  intros Ha H.
  destruct (Snake.body (GameBoard.snake b)) as [|h tl] eqn:Hb.
  { unfold GameBoard.update_game, Snake.move in H. rewrite Ha, Hb in H.
    discriminate. }
  rewrite (update_game_active b tp h tl Ha Hb) in H. cbv zeta in H.
  pose proof (moved_length (GameBoard.snake b) h tl Hb) as L.
  rewrite Hb in L.
  destruct (collides (GameBoard.snake b) h).
  - injection H as <- <-. exact L.
  - destruct (cell_eqb _ _).
    + destruct (Food.respawn _ _ tp) as [[f tp1]| |]; try discriminate.
      cbn [bind] in H. injection H as <- <-. exact L.
    + injection H as <- <-. exact L.
Qed.

(** An active tick returns as soon as the tape holds a free draw for the body
    the move leaves; a collision or a plain advance needs no draw at all. *)
Lemma update_game_returns (b : GameBoard.t) (tp : tape) (s1 : Snake.t) :
  GameBoard.game_active b = true ->
  Snake.move (GameBoard.snake b) = Ok s1 ->
  0 < Food.grid_width (GameBoard.food b) ->
  0 < Food.grid_height (GameBoard.food b) ->
  has_free_draw (Food.grid_width (GameBoard.food b))
    (Food.grid_height (GameBoard.food b)) (Snake.body s1) tp = true ->
  exists b' tp', GameBoard.update_game b tp = Ok (b', tp').
Proof.
  intros Ha Hm Hw Hg Hf.
  destruct (move_inv _ _ Hm) as [h [tl [Hb ->]]].
  rewrite (update_game_active b tp h tl Ha Hb). cbv zeta.
  destruct (collides (GameBoard.snake b) h); [eauto|].
  destruct (cell_eqb _ _); [|eauto].
  apply (respawn_returns _ _ _ Hw Hg) in Hf. destruct Hf as [f' [tp' R]].
  rewrite R. cbn [bind]. eauto.
Qed.

(** C1 (as amended): on a tick whose move brings the head onto the food
    without a collision, the score grows by exactly 10, the growth flag is
    set and the new food position is on no body cell; the body does not grow
    on that tick on account of this food (its length changes only by the
    growth that was already pending), it grows by exactly one on the
    following tick, whatever that tick meets: in Scenario A the body has
    three cells after the tick and four after the next.  A tick returns as
    soon as the tape holds a free draw.  Over any tick the length of the
    body never decreases. *)
Theorem update_game_eat :
  (forall (b b' : GameBoard.t) (tp tp' : tape) (s1 : Snake.t),
      GameBoard.game_active b = true ->
      Snake.move (GameBoard.snake b) = Ok s1 ->
      Snake.check_collision s1 = Ok (false, s1) ->
      hd_error (Snake.body s1) = Some (Food.position (GameBoard.food b)) ->
      GameBoard.update_game b tp = Ok (b', tp') ->
      length (Snake.body (GameBoard.snake b')) =
        (length (Snake.body (GameBoard.snake b))
         + (if Snake.grow (GameBoard.snake b) then 1 else 0))%nat
      /\ Snake.grow (GameBoard.snake b') = true
      /\ GameBoard.score b' = GameBoard.score b + 10
      /\ GameBoard.game_active b' = true
      /\ ~ In (Food.position (GameBoard.food b')) (Snake.body (GameBoard.snake b'))
      /\ (exists s2,
             Snake.move (GameBoard.snake b') = Ok s2
             /\ length (Snake.body s2) = S (length (Snake.body (GameBoard.snake b'))))
      /\ (forall (next : GameBoard.t) (tp2 tp2' : tape),
             GameBoard.update_game b' tp2 = Ok (next, tp2') ->
             length (Snake.body (GameBoard.snake next))
             = S (length (Snake.body (GameBoard.snake b')))))
  /\ (forall (b : GameBoard.t) (tp : tape) (s1 : Snake.t),
         GameBoard.game_active b = true ->
         Snake.move (GameBoard.snake b) = Ok s1 ->
         Snake.check_collision s1 = Ok (false, s1) ->
         hd_error (Snake.body s1) = Some (Food.position (GameBoard.food b)) ->
         0 < Food.grid_width (GameBoard.food b) ->
         0 < Food.grid_height (GameBoard.food b) ->
         has_free_draw (Food.grid_width (GameBoard.food b))
           (Food.grid_height (GameBoard.food b)) (Snake.body s1) tp = true ->
         exists b' tp', GameBoard.update_game b tp = Ok (b', tp'))
  /\ (forall (b b' : GameBoard.t) (tp tp' : tape),
         GameBoard.update_game b tp = Ok (b', tp') ->
         (length (Snake.body (GameBoard.snake b))
          <= length (Snake.body (GameBoard.snake b')))%nat)
  /\ (forall (b : GameBoard.t) (tp : tape) (s1 : Snake.t),
         GameBoard.game_active b = true ->
         Snake.move (GameBoard.snake b) = Ok s1 ->
         0 < Food.grid_width (GameBoard.food b) ->
         0 < Food.grid_height (GameBoard.food b) ->
         has_free_draw (Food.grid_width (GameBoard.food b))
           (Food.grid_height (GameBoard.food b)) (Snake.body s1) tp = true ->
         exists b' tp', GameBoard.update_game b tp = Ok (b', tp')).
Proof.
  split; [|split; [|split; [exact update_game_length|exact update_game_returns]]].
  - intros b b' tp tp' s1 Ha Hm Hc Hh Hu.
    destruct (move_inv _ _ Hm) as [h [tl [Hb ->]]].
    rewrite check_collision_moved in Hc. injection Hc as Hc.
    cbn [moved Snake.body hd_error] in Hh. injection Hh as Hh.
    rewrite (update_game_active b tp h tl Ha Hb) in Hu. cbv zeta in Hu.
    rewrite Hc, Hh, cell_eqb_refl in Hu.
    destruct (Food.respawn _ _ tp) as [[f tp1]| |] eqn:R; try discriminate.
    cbn [bind] in Hu. injection Hu as <- <-.
    apply respawn_ok in R. destruct R as [Hfree _].
    split; [apply (moved_length _ h tl Hb)|].
    split; [reflexivity|]. split; [reflexivity|]. split; [reflexivity|].
    split; [exact Hfree|]. split.
    + eexists. split.
      * apply (move_cons (Snake.eat_food (moved (GameBoard.snake b) h))
                 (add_cell h (Snake.direction (GameBoard.snake b))) _ eq_refl).
      * reflexivity.
    + intros next tp2 tp2' Hn.
      apply update_game_active_length in Hn; [|reflexivity].
      rewrite Hn. cbn [GameBoard.set_session GameBoard.set_objects
                       GameBoard.snake Snake.eat_food Snake.grow]. lia.
  - intros b tp s1 Ha Hm Hc Hh Hw Hg Hf.
    destruct (move_inv _ _ Hm) as [h [tl [Hb ->]]].
    rewrite check_collision_moved in Hc. injection Hc as Hc.
    cbn [moved Snake.body hd_error] in Hh. injection Hh as Hh.
    rewrite (update_game_active b tp h tl Ha Hb). cbv zeta.
    rewrite Hc, Hh, cell_eqb_refl.
    apply (respawn_returns _ _ _ Hw Hg) in Hf. destruct Hf as [f' [tp' R]].
    rewrite R. cbn [bind]. eauto.
Qed.

Lemma update_game_eat_witness :
  exists b' tp' next tp2',
    GameBoard.update_game scenario_A [3; 4] = Ok (b', tp')
    /\ length (Snake.body (GameBoard.snake b')) = 3%nat
    /\ GameBoard.score b' = 10
    /\ ~ In (Food.position (GameBoard.food b')) (Snake.body (GameBoard.snake b'))
    /\ GameBoard.update_game b' tp' = Ok (next, tp2')
    /\ length (Snake.body (GameBoard.snake next)) = 4%nat.
Proof.
  destruct (proj1 (proj2 update_game_eat) scenario_A [3; 4]
              (moved (GameBoard.snake scenario_A) (10, 10))
              eq_refl eq_refl eq_refl eq_refl ltac:(simpl; lia) ltac:(simpl; lia)
              eq_refl) as [b' [tp' Hu]].
  destruct (proj1 update_game_eat scenario_A b' [3; 4] tp'
              (moved (GameBoard.snake scenario_A) (10, 10))
              eq_refl eq_refl eq_refl eq_refl Hu)
    as [Hl [_ [Hs [_ [Hf [_ Hnext]]]]]].
  assert (E : Ok (b', tp') = GameBoard.update_game scenario_A [3; 4])
    by (symmetry; exact Hu).
  vm_compute in E. injection E as Eb Et.
  assert (Hn : exists next tp2', GameBoard.update_game b' tp' = Ok (next, tp2')).
  { rewrite Eb, Et. do 2 eexists. vm_compute. reflexivity. }
  destruct Hn as [next [tp2' Hn]].
  exists b', tp', next, tp2'. split; [exact Hu|].
  split; [exact Hl|]. split; [exact Hs|]. split; [exact Hf|].
  split; [exact Hn|]. rewrite (Hnext next tp' tp2' Hn), Hl. reflexivity.
Defined.

(** C1 (counterexample): in Scenario A the head reaches the food at (11,10),
    ten points are scored, and the body is still three cells long when the
    tick is over. *)
Lemma scenario_A_length_unchanged :
  exists b' tp',
    GameBoard.update_game scenario_A [3; 4] = Ok (b', tp')
    /\ hd_error (Snake.body (GameBoard.snake b'))
       = Some (Food.position (GameBoard.food scenario_A))
    /\ GameBoard.score b' = GameBoard.score scenario_A + 10
    /\ length (Snake.body (GameBoard.snake scenario_A)) = 3%nat
    /\ length (Snake.body (GameBoard.snake b')) = 3%nat
    /\ length (Snake.body (GameBoard.snake b')) <> 4%nat.
Proof.
  do 2 eexists. split; [vm_compute; reflexivity|].
  repeat split; discriminate.
Qed.

(** ** GameBoard.init_game and restart_game *)

Lemma init_game_inv (b b' : GameBoard.t) (tp tp' : tape) :
  GameBoard.init_game b tp = Ok (b', tp') ->
  GameBoard.snake b' = Snake.__init__ (GameBoard.grid_width b) (GameBoard.grid_height b)
  /\ GameBoard.score b' = 0
  /\ GameBoard.game_active b' = true
  /\ Food.grid_width (GameBoard.food b') = GameBoard.grid_width b
  /\ Food.grid_height (GameBoard.food b') = GameBoard.grid_height b
  /\ in_bounds (GameBoard.grid_width b) (GameBoard.grid_height b)
       (Food.position (GameBoard.food b'))
  /\ GameBoard.cell_size b' = GameBoard.cell_size b
  /\ GameBoard.grid_width b' = GameBoard.grid_width b
  /\ GameBoard.grid_height b' = GameBoard.grid_height b
  /\ GameBoard.timer_active b' = GameBoard.timer_active b.
Proof.
  unfold GameBoard.init_game, Food.__init__. intros H.
  destruct (Food.generate_position (GameBoard.grid_width b)
              (GameBoard.grid_height b) tp) as [[p tp1]| |] eqn:G;
    try discriminate.
  cbn [bind] in H. injection H as <- <-.
  apply generate_position_in_bounds in G. cbn. repeat split; apply G.
Qed.

Lemma init_game_cons (b : GameBoard.t) (x y : Z) (tp : tape) :
  0 < GameBoard.grid_width b -> 0 < GameBoard.grid_height b ->
  GameBoard.init_game b (x :: y :: tp) =
    Ok (GameBoard.set_session
          (GameBoard.set_objects b
             (Snake.__init__ (GameBoard.grid_width b) (GameBoard.grid_height b))
             {| Food.grid_width := GameBoard.grid_width b;
                Food.grid_height := GameBoard.grid_height b;
                Food.position := (x mod GameBoard.grid_width b,
                                  y mod GameBoard.grid_height b) |})
          0 true, tp).
Proof.
  intros Hw Hh. unfold GameBoard.init_game, Food.__init__.
  rewrite generate_position_cons by assumption. reflexivity.
Qed.

Lemma init_game_no_raise (b : GameBoard.t) (tp : tape) (e : exn) :
  0 < GameBoard.grid_width b -> 0 < GameBoard.grid_height b ->
  GameBoard.init_game b tp <> Raise e.
Proof.
  intros Hw Hh. unfold GameBoard.init_game, Food.__init__.
  destruct (Food.generate_position (GameBoard.grid_width b)
              (GameBoard.grid_height b) tp) as [[p tp1]| |] eqn:G.
  - discriminate.
  - exfalso. exact (generate_position_no_raise _ _ _ _ Hw Hh G).
  - discriminate.
Qed.

(** What [restart_game] does establish: the fresh centred three-cell body
    heading right, score 0, an active session and a running timer. *)
Lemma restart_game_inv (b b' : GameBoard.t) (tp tp' : tape) :
  GameBoard.restart_game b tp = Ok (b', tp') ->
  Snake.body (GameBoard.snake b') =
    [(GameBoard.grid_width b / 2, GameBoard.grid_height b / 2);
     (GameBoard.grid_width b / 2 - 1, GameBoard.grid_height b / 2);
     (GameBoard.grid_width b / 2 - 2, GameBoard.grid_height b / 2)]
  /\ Snake.direction (GameBoard.snake b') = DIRECTIONS RIGHT
  /\ Snake.grow (GameBoard.snake b') = false
  /\ GameBoard.score b' = 0
  /\ GameBoard.game_active b' = true
  /\ GameBoard.timer_active b' = true
  /\ in_bounds (GameBoard.grid_width b) (GameBoard.grid_height b)
       (Food.position (GameBoard.food b')).
Proof.
  unfold GameBoard.restart_game. intros H.
  destruct (GameBoard.init_game b tp) as [[b1 tp1]| |] eqn:I; try discriminate.
  cbn [bind] in H. injection H as <- <-.
  apply init_game_inv in I.
  destruct I as [Hs [Hsc [Ha [_ [_ [Hp _]]]]]].
  cbn [GameBoard.set_timer GameBoard.snake GameBoard.score GameBoard.food
       GameBoard.game_active GameBoard.timer_active].
  rewrite Hs, Hsc, Ha. cbn [Snake.__init__ Snake.body Snake.direction Snake.grow].
  repeat split; apply Hp.
Qed.

(** C3 (the defect): [restart_game] goes through [init_game], whose [Food]
    constructor draws one position and never compares it with the snake.
    After eight ticks the fresh 15 x 15 game has ended against the right
    wall; restarting with the draws 7, 7 gives the centred body, heading
    right, score 0 and an active session, and puts the food on the head. *)
Theorem restart_game_food_on_snake :
  exists b b' : GameBoard.t,
    play (repeat Tick 8) [0; 0] = Ok (b, [])
    /\ GameBoard.game_active b = false
    /\ GameBoard.restart_game b [7; 7] = Ok (b', [])
    /\ Snake.body (GameBoard.snake b') = [(7, 7); (6, 7); (5, 7)]
    /\ Snake.direction (GameBoard.snake b') = DIRECTIONS RIGHT
    /\ GameBoard.score b' = 0
    /\ GameBoard.game_active b' = true
    /\ Food.position (GameBoard.food b') = (7, 7)
    /\ In (Food.position (GameBoard.food b')) (Snake.body (GameBoard.snake b')).
Proof.
  do 2 eexists. split; [vm_compute; reflexivity|].
  split; [reflexivity|]. split; [vm_compute; reflexivity|].
  repeat split. left. reflexivity.
Qed.

(** ** GameBoard.resizeEvent *)

Section Resize.

Variables (b : GameBoard.t) (width height cs gw gh : Z).

Hypothesis Hdim : GameBoard.calculate_dimensions width height = Ok (cs, gw, gh).

Lemma resizeEvent_unchanged (tp : tape) :
  changed b cs gw gh = false ->
  GameBoard.resizeEvent b width height tp = Ok (b, tp).
Proof.
  intros Hc. unfold GameBoard.resizeEvent. rewrite Hdim. cbn [bind].
  fold (changed b cs gw gh). now rewrite Hc.
Qed.

Lemma resizeEvent_smart (tp : tape) :
  changed b cs gw gh = true ->
  forallb (GameBoard.pos_valid gw gh) (Snake.body (GameBoard.snake b)) = true ->
  GameBoard.resizeEvent b width height tp =
    ('(f, tp1) <- Food.update_grid_size (GameBoard.food b) gw gh tp ;;
     '(f, tp2) <- Food.respawn f (Snake.body (GameBoard.snake b)) tp1 ;;
     Ok (resized b cs gw gh
           (Snake.update_grid_size (GameBoard.snake b) gw gh) f, tp2)).
Proof.
  intros Hc Hv. unfold GameBoard.resizeEvent. rewrite Hdim. cbn [bind].
  fold (changed b cs gw gh). rewrite Hc.
  destruct (GameBoard.timer_active b) eqn:T;
    cbn [GameBoard.set_geometry GameBoard.set_timer GameBoard.snake
         GameBoard.food GameBoard.score GameBoard.game_active];
    rewrite Hv;
    (destruct (Food.update_grid_size (GameBoard.food b) gw gh tp)
       as [[f tp1]| |]; [|reflexivity|reflexivity]);
    cbn [bind Snake.update_grid_size Snake.body];
    (destruct (Food.respawn f (Snake.body (GameBoard.snake b)) tp1)
       as [[f2 tp2]| |]; [|reflexivity|reflexivity]);
    cbn [bind]; unfold resized; rewrite T;
    destruct (GameBoard.game_active b) eqn:A;
    unfold GameBoard.set_session, GameBoard.set_objects,
      GameBoard.set_geometry, GameBoard.set_timer;
    cbn; rewrite ?T, ?A; reflexivity.
Qed.

Lemma resizeEvent_discard (tp : tape) :
  changed b cs gw gh = true ->
  forallb (GameBoard.pos_valid gw gh) (Snake.body (GameBoard.snake b)) = false ->
  GameBoard.resizeEvent b width height tp =
    ('(f, tp1) <- Food.__init__ gw gh tp ;;
     Ok (resized b cs gw gh (Snake.__init__ gw gh) f, tp1)).
Proof.
  intros Hc Hv. unfold GameBoard.resizeEvent. rewrite Hdim. cbn [bind].
  fold (changed b cs gw gh). rewrite Hc.
  destruct (GameBoard.timer_active b) eqn:T;
    cbn [GameBoard.set_geometry GameBoard.set_timer GameBoard.snake
         GameBoard.food GameBoard.score GameBoard.game_active];
    rewrite Hv; unfold GameBoard.init_game;
    cbn [GameBoard.grid_width GameBoard.grid_height GameBoard.set_geometry];
    (destruct (Food.__init__ gw gh tp) as [[f tp1]| |];
       [|reflexivity|reflexivity]);
    cbn [bind]; unfold resized; rewrite T;
    destruct (GameBoard.game_active b) eqn:A;
    unfold GameBoard.set_session, GameBoard.set_objects,
      GameBoard.set_geometry, GameBoard.set_timer;
    cbn; rewrite ?T, ?A; reflexivity.
Qed.

End Resize.

Lemma calculate_dimensions_min (width height cs gw gh : Z) :
  GameBoard.calculate_dimensions width height = Ok (cs, gw, gh) ->
  MIN_CELL_SIZE <= cs <= MAX_CELL_SIZE
  /\ MIN_GRID_SIZE <= gw /\ MIN_GRID_SIZE <= gh.
Proof.
  intros H.
  destruct (calculate_dimensions_total width height)
    as [cs' [gw' [gh' [E [Hc [Hw Hh]]]]]].
  rewrite H in E. injection E as <- <- <-.
  split; [exact Hc|]. rewrite Hw, Hh. split; apply Z.le_max_r.
Qed.

Lemma resizeEvent_session (b b' : GameBoard.t) (width height : Z) (tp tp' : tape) :
  GameBoard.resizeEvent b width height tp = Ok (b', tp') ->
  GameBoard.score b' = GameBoard.score b
  /\ GameBoard.game_active b' = GameBoard.game_active b.
Proof.
  intros H.
  destruct (calculate_dimensions_total width height)
    as [cs [gw [gh [Hdim _]]]].
  destruct (changed b cs gw gh) eqn:Hc.
  2:{ rewrite (resizeEvent_unchanged b _ _ _ _ _ Hdim tp Hc) in H.
      injection H as <- <-. split; reflexivity. }
  destruct (forallb (GameBoard.pos_valid gw gh) (Snake.body (GameBoard.snake b)))
    eqn:Hv.
  - rewrite (resizeEvent_smart b _ _ _ _ _ Hdim tp Hc Hv) in H.
    destruct (Food.update_grid_size (GameBoard.food b) gw gh tp)
      as [[f tp1]| |]; try discriminate. cbn [bind] in H.
    destruct (Food.respawn f (Snake.body (GameBoard.snake b)) tp1)
      as [[f2 tp2]| |]; try discriminate. cbn [bind] in H.
    injection H as <- <-. split; reflexivity.
  - rewrite (resizeEvent_discard b _ _ _ _ _ Hdim tp Hc Hv) in H.
    destruct (Food.__init__ gw gh tp) as [[f tp1]| |]; try discriminate.
    cbn [bind] in H. injection H as <- <-. split; reflexivity.
Qed.

(** C2: whatever [resizeEvent] does, the board it returns has the score and
    the activity flag it was called with.  Both branches do return: the
    reinitialising one on any two draws, with the fresh snake, and the
    updating one on two draws followed by a tape with a free draw, with the
    body untouched.  In the resize scenario (score 40, active, 20 x 20 to
    30 x 30, the body within the new bounds) the score is 40 and the session
    active afterwards. *)
Theorem resizeEvent_preserves_session :
  (forall (b b' : GameBoard.t) (width height : Z) (tp tp' : tape),
      GameBoard.resizeEvent b width height tp = Ok (b', tp') ->
      GameBoard.score b' = GameBoard.score b
      /\ GameBoard.game_active b' = GameBoard.game_active b)
  /\ (forall (b : GameBoard.t) (width height cs gw gh x y : Z) (tp : tape),
         GameBoard.calculate_dimensions width height = Ok (cs, gw, gh) ->
         changed b cs gw gh = true ->
         forallb (GameBoard.pos_valid gw gh) (Snake.body (GameBoard.snake b))
           = false ->
         exists b',
           GameBoard.resizeEvent b width height (x :: y :: tp) = Ok (b', tp)
           /\ GameBoard.snake b' = Snake.__init__ gw gh
           /\ GameBoard.score b' = GameBoard.score b
           /\ GameBoard.game_active b' = GameBoard.game_active b)
  /\ (forall (b : GameBoard.t) (width height cs gw gh x y : Z) (tp : tape),
         GameBoard.calculate_dimensions width height = Ok (cs, gw, gh) ->
         changed b cs gw gh = true ->
         forallb (GameBoard.pos_valid gw gh) (Snake.body (GameBoard.snake b))
           = true ->
         has_free_draw gw gh (Snake.body (GameBoard.snake b)) tp = true ->
         exists b' tp',
           GameBoard.resizeEvent b width height (x :: y :: tp) = Ok (b', tp')
           /\ Snake.body (GameBoard.snake b') = Snake.body (GameBoard.snake b)
           /\ GameBoard.score b' = GameBoard.score b
           /\ GameBoard.game_active b' = GameBoard.game_active b)
  /\ (exists b',
         GameBoard.resizeEvent scenario_resize 454 454 [3; 3; 5; 5] = Ok (b', [])
         /\ GameBoard.grid_width b' = 30 /\ GameBoard.grid_height b' = 30
         /\ Snake.body (GameBoard.snake b') = Snake.body (GameBoard.snake scenario_resize)
         /\ GameBoard.score b' = 40
         /\ GameBoard.game_active b' = true).
Proof.
  split; [exact resizeEvent_session|]. split; [|split].
  - intros b width height cs gw gh x y tp Hdim Hc Hv.
    destruct (calculate_dimensions_min _ _ _ _ _ Hdim) as [_ [Hw Hh]].
    unfold MIN_GRID_SIZE in Hw, Hh.
    rewrite (resizeEvent_discard b _ _ _ _ _ Hdim _ Hc Hv).
    unfold Food.__init__. rewrite generate_position_cons by lia.
    cbn [bind]. eexists. split; [reflexivity|]. repeat split.
  - intros b width height cs gw gh x y tp Hdim Hc Hv Hf.
    destruct (calculate_dimensions_min _ _ _ _ _ Hdim) as [_ [Hw Hh]].
    unfold MIN_GRID_SIZE in Hw, Hh.
    rewrite (resizeEvent_smart b _ _ _ _ _ Hdim _ Hc Hv).
    unfold Food.update_grid_size. rewrite generate_position_cons by lia.
    cbn [bind].
    match goal with
    | |- context [Food.respawn ?f0 _ _] =>
        destruct (proj2 (respawn_returns (Snake.body (GameBoard.snake b)) f0 tp
                           ltac:(simpl; lia) ltac:(simpl; lia)) Hf)
          as [f' [tp' R]]
    end.
    rewrite R. cbn [bind]. do 2 eexists. split; [reflexivity|]. repeat split.
  - eexists. split; [vm_compute; reflexivity|]. repeat split.
Qed.

Lemma resizeEvent_preserves_session_witness :
  exists b' tp',
    GameBoard.resizeEvent scenario_resize 454 454 [3; 3; 10; 10; 5; 5] = Ok (b', tp')
    /\ GameBoard.score b' = 40
    /\ GameBoard.game_active b' = true.
Proof.
  destruct (proj1 (proj2 (proj2 resizeEvent_preserves_session))
              scenario_resize 454 454 15 30 30 3 3 [10; 10; 5; 5]
              eq_refl eq_refl eq_refl eq_refl) as [b' [tp' [Hr _]]].
  exists b', tp'. split; [exact Hr|].
  exact (proj1 resizeEvent_preserves_session scenario_resize b' 454 454 _ _ Hr).
Defined.

(** ** The invariant of a running board *)

Lemma Forall_removelast {A : Type} (P : A -> Prop) (l : list A) :
  Forall P l -> Forall P (removelast l).
Proof.
  rewrite !Forall_forall. intros H x Hx. apply H. now apply removelast_incl.
Qed.

Lemma init_body_in_bounds (gw gh : Z) :
  MIN_GRID_SIZE <= gw -> MIN_GRID_SIZE <= gh ->
  Forall (in_bounds gw gh) (Snake.body (Snake.__init__ gw gh)).
Proof.
  unfold MIN_GRID_SIZE. intros Hw Hh. cbn [Snake.__init__ Snake.body].
  assert (X : 7 <= gw / 2 < gw)
    by (split; [apply Z.div_le_lower_bound | apply Z.div_lt_upper_bound]; lia).
  assert (Y : 7 <= gh / 2 < gh)
    by (split; [apply Z.div_le_lower_bound | apply Z.div_lt_upper_bound]; lia).
  repeat constructor; simpl; lia.
Qed.

Lemma pos_valid_in_bounds (gw gh : Z) (cells : list Cell) :
  forallb (GameBoard.pos_valid gw gh) cells = true <-> Forall (in_bounds gw gh) cells.
Proof.
  rewrite forallb_forall, Forall_forall.
  assert (E : forall c, GameBoard.pos_valid gw gh c = true <-> in_bounds gw gh c).
  { intros c. unfold GameBoard.pos_valid, in_bounds.
    rewrite !andb_true_iff, !Z.leb_le, !Z.ltb_lt. tauto. }
  split; intros H c Hc; apply E, H, Hc.
Qed.

Lemma wf_init_game (b b' : GameBoard.t) (tp tp' : tape) :
  MIN_GRID_SIZE <= GameBoard.grid_width b ->
  MIN_GRID_SIZE <= GameBoard.grid_height b ->
  GameBoard.init_game b tp = Ok (b', tp') ->
  wf b' /\ body_in_grid b'.
Proof.
  intros Hw Hh H. apply init_game_inv in H.
  destruct H as [Hs [_ [_ [Hfw [Hfh [_ [_ [Ew [Eh _]]]]]]]]].
  assert (B : body_in_grid b').
  { unfold body_in_grid. rewrite Hs, Ew, Eh. now apply init_body_in_bounds. }
  split; [|exact B].
  constructor; try (intros _; exact B);
    rewrite ?Ew, ?Eh, ?Hs; try assumption; try reflexivity.
  discriminate.
Qed.

Lemma wf_constructor (b : GameBoard.t) (tp tp' : tape) :
  GameBoard.__init__ tp = Ok (b, tp') -> wf b.
Proof.
  unfold GameBoard.__init__, Food.__init__. intros H.
  destruct (Food.generate_position MIN_GRID_SIZE MIN_GRID_SIZE tp)
    as [[p tp1]| |]; try discriminate.
  cbn [bind] in H. injection H as <- <-.
  constructor; cbn; try reflexivity; try lia; try discriminate.
  intros _. apply (init_body_in_bounds MIN_GRID_SIZE MIN_GRID_SIZE); reflexivity.
Qed.

Lemma wf_update_game (b b' : GameBoard.t) (tp tp' : tape) :
  wf b -> GameBoard.update_game b tp = Ok (b', tp') -> wf b'.
Proof.
  intros W H. destruct (GameBoard.game_active b) eqn:Ha.
  2:{ rewrite update_game_inactive in H by assumption.
      injection H as <- <-. exact W. }
  destruct (Snake.body (GameBoard.snake b)) as [|h tl] eqn:Hb.
  { exfalso. now apply (wf_body b W). }
  rewrite (update_game_active b tp h tl Ha Hb) in H. cbv zeta in H.
  destruct W as [Hw Hh Hsw Hsh Hfw Hfh Hne Hin].
  destruct (collides (GameBoard.snake b) h) eqn:C.
  - injection H as <- <-. constructor; cbn; try assumption; discriminate.
  - apply collides_false in C. destruct C as [Cin _].
    rewrite Hsw, Hsh in Cin.
    assert (B : Forall (in_bounds (GameBoard.grid_width b) (GameBoard.grid_height b))
                  (Snake.body (moved (GameBoard.snake b) h))).
    { cbn [moved Snake.body]. constructor; [exact Cin|].
      specialize (Hin Ha). unfold body_in_grid in Hin.
      destruct (Snake.grow (GameBoard.snake b));
        [exact Hin | now apply Forall_removelast]. }
    destruct (cell_eqb _ _).
    + destruct (Food.respawn _ _ tp) as [[f tp1]| |] eqn:R; try discriminate.
      cbn [bind] in H. injection H as <- <-.
      apply respawn_ok in R. destruct R as [_ [Rw [Rh _]]].
      constructor; cbn; try assumption; try congruence; try discriminate.
      intros _. exact B.
    + injection H as <- <-.
      constructor; cbn; try assumption; try discriminate.
      intros _. exact B.
Qed.

Lemma wf_change_direction (b : GameBoard.t) (d : Heading) :
  wf b -> wf (GameBoard.change_direction b d).
Proof.
  intros [Hw Hh Hsw Hsh Hfw Hfh Hne Hin].
  unfold GameBoard.change_direction, Snake.change_direction.
  destruct (negb _); constructor; cbn; assumption.
Qed.

Lemma wf_keyPressEvent (b b' : GameBoard.t) (key : Key) (tp tp' : tape) :
  wf b -> GameBoard.keyPressEvent b key tp = Ok (b', tp') -> wf b'.
Proof.
  intros W H. destruct key; cbn [GameBoard.keyPressEvent] in H;
    try (injection H as <- <-; try apply wf_change_direction; exact W).
  destruct (GameBoard.game_active b); cbn [negb] in H;
    [injection H as <- <-; exact W|].
  unfold GameBoard.restart_game in H.
  destruct (GameBoard.init_game b tp) as [[b1 tp1]| |] eqn:I; try discriminate.
  cbn [bind] in H. injection H as <- <-.
  apply wf_init_game in I; [|apply W|apply W].
  destruct I as [[Hw Hh Hsw Hsh Hfw Hfh Hne Hin] B].
  constructor; cbn; assumption.
Qed.

Lemma wf_resizeEvent (b b' : GameBoard.t) (width height : Z) (tp tp' : tape) :
  wf b -> GameBoard.resizeEvent b width height tp = Ok (b', tp') -> wf b'.
Proof.
  intros W H.
  destruct (calculate_dimensions_total width height)
    as [cs [gw [gh [Hdim _]]]].
  destruct (calculate_dimensions_min _ _ _ _ _ Hdim) as [_ [Hw Hh]].
  destruct (changed b cs gw gh) eqn:Hc.
  2:{ rewrite (resizeEvent_unchanged b _ _ _ _ _ Hdim tp Hc) in H.
      injection H as <- <-. exact W. }
  destruct (forallb (GameBoard.pos_valid gw gh) (Snake.body (GameBoard.snake b)))
    eqn:Hv.
  - rewrite (resizeEvent_smart b _ _ _ _ _ Hdim tp Hc Hv) in H.
    unfold Food.update_grid_size in H.
    destruct (Food.generate_position gw gh tp) as [[p tp1]| |];
      try discriminate. cbn [bind] in H.
    destruct (Food.respawn _ (Snake.body (GameBoard.snake b)) tp1)
      as [[f2 tp2]| |] eqn:R; try discriminate. cbn [bind] in H.
    injection H as <- <-. apply respawn_ok in R.
    destruct R as [_ [Rw [Rh _]]]. cbn in Rw, Rh.
    apply pos_valid_in_bounds in Hv.
    constructor; cbn; try assumption; try reflexivity.
    + apply (wf_body b W).
    + intros _. exact Hv.
  - rewrite (resizeEvent_discard b _ _ _ _ _ Hdim tp Hc Hv) in H.
    unfold Food.__init__ in H.
    destruct (Food.generate_position gw gh tp) as [[p tp1]| |];
      try discriminate. cbn [bind] in H. injection H as <- <-.
    constructor; cbn; try assumption; try reflexivity.
    + discriminate.
    + intros _. now apply (init_body_in_bounds gw gh).
Qed.

Lemma wf_handle (b b' : GameBoard.t) (e : event) (tp tp' : tape) :
  wf b -> handle b e tp = Ok (b', tp') -> wf b'.
Proof.
  destruct e; cbn [handle].
  - apply wf_update_game.
  - apply wf_keyPressEvent.
  - apply wf_resizeEvent.
Qed.

Lemma wf_run (events : list event) :
  forall (b b' : GameBoard.t) (tp tp' : tape),
    wf b -> run b events tp = Ok (b', tp') -> wf b'.
Proof.
  induction events as [|e events IH]; intros b b' tp tp' W H.
  - injection H as <- <-. exact W.
  - cbn [run] in H.
    destruct (handle b e tp) as [[b1 tp1]| |] eqn:E; try discriminate.
    cbn [bind] in H. eapply IH; [|exact H]. eapply wf_handle; eassumption.
Qed.

Lemma wf_play (events : list event) (b : GameBoard.t) (tp tp' : tape) :
  play events tp = Ok (b, tp') -> wf b.
Proof.
  unfold play. intros H.
  destruct (GameBoard.__init__ tp) as [[b0 tp0]| |] eqn:I; try discriminate.
  cbn [bind] in H. eapply wf_run; [|exact H]. eapply wf_constructor; eassumption.
Qed.

(** ** No exception on a running board *)

Lemma update_game_no_raise (b : GameBoard.t) (tp : tape) (e : exn) :
  wf b -> GameBoard.update_game b tp <> Raise e.
Proof.
  intros W. destruct (GameBoard.game_active b) eqn:Ha.
  2:{ rewrite update_game_inactive by assumption. discriminate. }
  destruct (Snake.body (GameBoard.snake b)) as [|h tl] eqn:Hb.
  { exfalso. now apply (wf_body b W). }
  rewrite (update_game_active b tp h tl Ha Hb). cbv zeta.
  destruct (collides (GameBoard.snake b) h); [discriminate|].
  destruct (cell_eqb _ _); [|discriminate].
  destruct (Food.respawn _ _ tp) as [[f tp1]| |] eqn:R; try discriminate.
  exfalso. revert R. apply respawn_loop_no_raise.
  - rewrite (wf_food_width b W). pose proof (wf_width b W).
    unfold MIN_GRID_SIZE in *. lia.
  - rewrite (wf_food_height b W). pose proof (wf_height b W).
    unfold MIN_GRID_SIZE in *. lia.
Qed.

Lemma keyPressEvent_no_raise (b : GameBoard.t) (key : Key) (tp : tape) (e : exn) :
  wf b -> GameBoard.keyPressEvent b key tp <> Raise e.
Proof.
  intros W. destruct key; cbn [GameBoard.keyPressEvent]; try discriminate.
  destruct (GameBoard.game_active b); cbn [negb]; [discriminate|].
  unfold GameBoard.restart_game.
  destruct (GameBoard.init_game b tp) as [[b1 tp1]| |] eqn:I; try discriminate.
  exfalso. revert I. apply init_game_no_raise.
  - pose proof (wf_width b W). unfold MIN_GRID_SIZE in *. lia.
  - pose proof (wf_height b W). unfold MIN_GRID_SIZE in *. lia.
Qed.

Lemma resizeEvent_no_raise (b : GameBoard.t) (width height : Z) (tp : tape) (e : exn) :
  GameBoard.resizeEvent b width height tp <> Raise e.
Proof.
  destruct (calculate_dimensions_total width height)
    as [cs [gw [gh [Hdim _]]]].
  destruct (calculate_dimensions_min _ _ _ _ _ Hdim) as [_ [Hw Hh]].
  unfold MIN_GRID_SIZE in Hw, Hh.
  destruct (changed b cs gw gh) eqn:Hc.
  2:{ rewrite (resizeEvent_unchanged b _ _ _ _ _ Hdim tp Hc). discriminate. }
  destruct (forallb (GameBoard.pos_valid gw gh) (Snake.body (GameBoard.snake b)))
    eqn:Hv.
  - rewrite (resizeEvent_smart b _ _ _ _ _ Hdim tp Hc Hv).
    unfold Food.update_grid_size.
    destruct (Food.generate_position gw gh tp) as [[p tp1]| |] eqn:G.
    + cbn [bind].
      destruct (Food.respawn _ (Snake.body (GameBoard.snake b)) tp1)
        as [[f2 tp2]| |] eqn:R; try discriminate.
      exfalso. revert R. apply respawn_loop_no_raise; simpl; lia.
    + exfalso. revert G. apply generate_position_no_raise; lia.
    + discriminate.
  - rewrite (resizeEvent_discard b _ _ _ _ _ Hdim tp Hc Hv).
    unfold Food.__init__.
    destruct (Food.generate_position gw gh tp) as [[p tp1]| |] eqn:G;
      try discriminate.
    exfalso. revert G. apply generate_position_no_raise; lia.
Qed.

Lemma run_no_raise (events : list event) :
  forall (b : GameBoard.t) (tp : tape) (e : exn),
    wf b -> run b events tp <> Raise e.
Proof.
  induction events as [|ev events IH]; intros b tp e W; [discriminate|].
  cbn [run]. destruct (handle b ev tp) as [[b1 tp1]| |] eqn:E.
  - cbn [bind]. apply IH. eapply wf_handle; eassumption.
  - exfalso. revert E. destruct ev; cbn [handle].
    + now apply update_game_no_raise.
    + now apply keyPressEvent_no_raise.
    + apply resizeEvent_no_raise.
  - discriminate.
Qed.

Lemma play_no_raise (events : list event) (tp : tape) (e : exn) :
  play events tp <> Raise e.
Proof.
  unfold play. destruct (GameBoard.__init__ tp) as [[b0 tp0]| |] eqn:I.
  - cbn [bind]. apply run_no_raise. eapply wf_constructor; eassumption.
  - exfalso. revert I. unfold GameBoard.__init__, Food.__init__.
    destruct (Food.generate_position MIN_GRID_SIZE MIN_GRID_SIZE tp)
      as [[p tp1]| |] eqn:G; try discriminate.
    exfalso. revert G. apply generate_position_no_raise; reflexivity.
  - discriminate.
Qed.

(** C4: a board reached from the constructor by any sequence of timer ticks
    (and, beyond the claim, key presses and resizes in any order) either has
    every body cell inside its grid or is no longer active; such a session
    never raises.  In Scenario B the move takes the head to (10,5), outside
    the 10 x 10 grid, and the same tick clears the activity flag, stops the
    timer and emits [game_over] once, the score unchanged. *)
Theorem bounds_invariant :
  (forall (events : list event) (tp tp' : tape) (b : GameBoard.t),
      play events tp = Ok (b, tp') ->
      GameBoard.game_active b = false
      \/ Forall (in_bounds (GameBoard.grid_width b) (GameBoard.grid_height b))
                (Snake.body (GameBoard.snake b)))
  /\ (forall (events : list event) (tp : tape) (e : exn),
         play events tp <> Raise e)
  /\ (forall tp : tape,
         exists b',
           GameBoard.update_game scenario_B tp = Ok (b', tp)
           /\ hd_error (Snake.body (GameBoard.snake b')) = Some (10, 5)
           /\ GameBoard.game_active b' = false
           /\ GameBoard.timer_active b' = false
           /\ GameBoard.game_over_emitted b' = 1%nat
           /\ GameBoard.score b' = GameBoard.score scenario_B).
Proof.
  split; [|split; [exact play_no_raise|]].
  - intros events tp tp' b H. apply wf_play in H.
    destruct (GameBoard.game_active b) eqn:Ha; [right | left; reflexivity].
    apply (wf_bounds b H Ha).
  - intros tp. eexists. split; [reflexivity|]. repeat split.
Qed.

Lemma bounds_invariant_witness :
  exists b tp',
    play [Tick; Tick; KeyPress Key_Up; Tick; Resize 454 454; Tick] [9; 7; 3; 3; 4; 4; 0; 1]
      = Ok (b, tp')
    /\ (GameBoard.game_active b = false
        \/ Forall (in_bounds (GameBoard.grid_width b) (GameBoard.grid_height b))
                  (Snake.body (GameBoard.snake b))).
Proof.
  do 2 eexists. split; [vm_compute; reflexivity|].
  eapply (proj1 bounds_invariant
            [Tick; Tick; KeyPress Key_Up; Tick; Resize 454 454; Tick]
            [9; 7; 3; 3; 4; 4; 0; 1]).
  vm_compute. reflexivity.
Defined.

(** C8 (the defect): when the body does not fit the new grid, [resizeEvent]
    rebuilds the game through [init_game], which draws the food position
    once and does not compare it with the new snake.  A session grown to
    30 x 30, twelve ticks to the right, then shrunk to 19 x 19 with the
    draws 9, 9: the food lies under the head of the fresh snake. *)
Theorem resizeEvent_food_on_snake :
  exists b : GameBoard.t,
    play (Resize 454 454 :: repeat Tick 12 ++ [Resize 300 300])
         [0; 0; 0; 0; 0; 0; 9; 9] = Ok (b, [])
    /\ GameBoard.grid_width b = 19 /\ GameBoard.grid_height b = 19
    /\ Snake.body (GameBoard.snake b) = [(9, 9); (8, 9); (7, 9)]
    /\ Food.position (GameBoard.food b) = (9, 9)
    /\ In (Food.position (GameBoard.food b)) (Snake.body (GameBoard.snake b)).
Proof.
  eexists. split; [vm_compute; reflexivity|].
  repeat split. left. reflexivity.
Qed.

(** The two paths on which the claimed exclusion does hold: [respawn]
    itself, and a resize in which the body fits the new grid. *)
Lemma respawn_excludes_body (f f' : Food.t) (snake_body : list Cell) (tp tp' : tape) :
  Food.respawn f snake_body tp = Ok (f', tp') ->
  ~ In (Food.position f') snake_body.
Proof. intros H. apply (respawn_ok snake_body f f' tp tp' H). Qed.

Lemma resizeEvent_smart_excludes_body
  (b b' : GameBoard.t) (width height cs gw gh : Z) (tp tp' : tape) :
  GameBoard.calculate_dimensions width height = Ok (cs, gw, gh) ->
  changed b cs gw gh = true ->
  forallb (GameBoard.pos_valid gw gh) (Snake.body (GameBoard.snake b)) = true ->
  GameBoard.resizeEvent b width height tp = Ok (b', tp') ->
  ~ In (Food.position (GameBoard.food b')) (Snake.body (GameBoard.snake b')).
Proof.
  intros Hdim Hc Hv H.
  rewrite (resizeEvent_smart b _ _ _ _ _ Hdim tp Hc Hv) in H.
  destruct (Food.update_grid_size (GameBoard.food b) gw gh tp)
    as [[f tp1]| |]; try discriminate. cbn [bind] in H.
  destruct (Food.respawn f (Snake.body (GameBoard.snake b)) tp1)
    as [[f2 tp2]| |] eqn:R; try discriminate. cbn [bind] in H.
  injection H as <- <-. cbn. now apply respawn_excludes_body in R.
Qed.

(** ** The value of calculate_dimensions *)

Lemma cell_size_candidate (a : Z) : a / Z.max (a / 15) 15 <= 15.
Proof.
  assert (K : 15 <= Z.max (a / 15) 15) by lia.
  assert (L : a / 15 <= Z.max (a / 15) 15) by lia.
  pose proof (Z.div_mod a 15 ltac:(lia)) as D.
  pose proof (Z.mod_pos_bound a 15 ltac:(lia)) as M.
  assert (U : a / Z.max (a / 15) 15 < 16).
  { apply Z.div_lt_upper_bound; lia. }
  lia.
Qed.

Lemma calculate_dimensions_value (width height : Z) :
  GameBoard.calculate_dimensions width height =
    Ok (15, Z.max ((width - 4) / 15) 15, Z.max ((height - 4) / 15) 15).
Proof.
  destruct (calculate_dimensions_total width height)
    as [cs [gw [gh [E [_ [Hw Hh]]]]]].
  assert (C : cs = 15).
  { revert E. unfold GameBoard.calculate_dimensions.
    rewrite !(floordiv_nonzero _ MIN_CELL_SIZE) by (unfold MIN_CELL_SIZE; lia).
    cbn [bind].
    rewrite !(floordiv_nonzero _ (Z.max _ MIN_GRID_SIZE))
      by (unfold MIN_GRID_SIZE; lia).
    cbn [bind].
    rewrite !(floordiv_nonzero _ (Z.max MIN_CELL_SIZE _))
      by (unfold MIN_CELL_SIZE; lia).
    cbn [bind]. intros E. injection E as E _ _. rewrite <- E.
    unfold MIN_CELL_SIZE, MAX_CELL_SIZE, MIN_GRID_SIZE.
    pose proof (cell_size_candidate (width - 4)).
    pose proof (cell_size_candidate (height - 4)). lia. }
  subst cs. unfold MIN_GRID_SIZE in Hw, Hh. rewrite E, Hw, Hh. reflexivity.
Qed.

(** ** The shapes a board can take after one event *)

Section HandleCases.

Variable P : GameBoard.t -> Prop.
Variable b : GameBoard.t.

Let s := GameBoard.snake b.
Let gw := GameBoard.grid_width b.
Let gh := GameBoard.grid_height b.

Hypothesis Hwf : wf b.

Hypothesis case_same : P b.

Hypothesis case_turn : forall d : Heading, P (GameBoard.change_direction b d).

Hypothesis case_restart :
  forall f : Food.t,
    GameBoard.game_active b = false ->
    Food.grid_width f = gw -> Food.grid_height f = gh ->
    in_bounds gw gh (Food.position f) ->
    P (GameBoard.set_timer
         (GameBoard.set_session
            (GameBoard.set_objects b (Snake.__init__ gw gh) f) 0 true) true).

Hypothesis case_collision :
  forall (h : Cell) (tl : list Cell),
    GameBoard.game_active b = true ->
    Snake.body s = h :: tl ->
    collides s h = true ->
    P (GameBoard.emit_game_over
         (GameBoard.set_timer
            (GameBoard.set_session
               (GameBoard.set_objects b (moved s h) (GameBoard.food b))
               (GameBoard.score b) false) false)).

Hypothesis case_eat :
  forall (h : Cell) (tl : list Cell) (f : Food.t),
    GameBoard.game_active b = true ->
    Snake.body s = h :: tl ->
    collides s h = false ->
    add_cell h (Snake.direction s) = Food.position (GameBoard.food b) ->
    Food.grid_width f = gw -> Food.grid_height f = gh ->
    in_bounds gw gh (Food.position f) ->
    ~ In (Food.position f) (Snake.body (moved s h)) ->
    P (GameBoard.set_session
         (GameBoard.set_objects b (Snake.eat_food (moved s h)) f)
         (GameBoard.score b + 10) true).

Hypothesis case_advance :
  forall (h : Cell) (tl : list Cell),
    GameBoard.game_active b = true ->
    Snake.body s = h :: tl ->
    collides s h = false ->
    add_cell h (Snake.direction s) <> Food.position (GameBoard.food b) ->
    P (GameBoard.set_objects b (moved s h) (GameBoard.food b)).

Hypothesis case_resize_keep :
  forall (gw' gh' : Z) (f : Food.t),
    MIN_GRID_SIZE <= gw' -> MIN_GRID_SIZE <= gh' ->
    changed b 15 gw' gh' = true ->
    Forall (in_bounds gw' gh') (Snake.body s) ->
    Food.grid_width f = gw' -> Food.grid_height f = gh' ->
    in_bounds gw' gh' (Food.position f) ->
    ~ In (Food.position f) (Snake.body s) ->
    P (resized b 15 gw' gh' (Snake.update_grid_size s gw' gh') f).

Hypothesis case_resize_discard :
  forall (gw' gh' : Z) (f : Food.t),
    MIN_GRID_SIZE <= gw' -> MIN_GRID_SIZE <= gh' ->
    changed b 15 gw' gh' = true ->
    ~ Forall (in_bounds gw' gh') (Snake.body s) ->
    Food.grid_width f = gw' -> Food.grid_height f = gh' ->
    in_bounds gw' gh' (Food.position f) ->
    P (resized b 15 gw' gh' (Snake.__init__ gw' gh') f).

Lemma update_game_cases (tp tp' : tape) (b' : GameBoard.t) :
  GameBoard.update_game b tp = Ok (b', tp') -> P b'.
Proof using Hwf case_same case_collision case_eat case_advance.
  clear case_turn case_restart case_resize_keep case_resize_discard.
  intros H. destruct (GameBoard.game_active b) eqn:Ha.
  2:{ rewrite update_game_inactive in H by assumption.
      injection H as <- <-. exact case_same. }
  destruct (Snake.body (GameBoard.snake b)) as [|h tl] eqn:Hb.
  { exfalso. now apply (wf_body b Hwf). }
  rewrite (update_game_active b tp h tl Ha Hb) in H. cbv zeta in H.
  fold s in H, Hb.
  destruct (collides s h) eqn:C.
  - injection H as <- <-. now apply (case_collision h tl).
  - destruct (cell_eqb (add_cell h (Snake.direction s))
                (Food.position (GameBoard.food b))) eqn:E.
    + apply cell_eqb_eq in E.
      destruct (Food.respawn _ _ tp) as [[f tp1]| |] eqn:R; try discriminate.
      cbn [bind] in H. injection H as <- <-.
      apply respawn_ok in R. destruct R as [Rfree [Rw [Rh Rin]]].
      rewrite (wf_food_width b Hwf) in Rw, Rin.
      rewrite (wf_food_height b Hwf) in Rh, Rin.
      now apply (case_eat h tl f).
    + apply cell_eqb_neq in E. injection H as <- <-.
      now apply (case_advance h tl).
Qed.

Lemma keyPressEvent_cases (key : Key) (tp tp' : tape) (b' : GameBoard.t) :
  GameBoard.keyPressEvent b key tp = Ok (b', tp') -> P b'.
Proof using case_same case_turn case_restart.
  clear Hwf case_collision case_eat case_advance case_resize_keep
    case_resize_discard.
  intros H. destruct key; cbn [GameBoard.keyPressEvent] in H;
    try (injection H as <- <-; first [apply case_turn | exact case_same]).
  destruct (GameBoard.game_active b) eqn:Ha; cbn [negb] in H;
    [injection H as <- <-; exact case_same|].
  unfold GameBoard.restart_game, GameBoard.init_game, Food.__init__ in H.
  destruct (Food.generate_position (GameBoard.grid_width b)
              (GameBoard.grid_height b) tp) as [[p tp1]| |] eqn:G;
    try discriminate.
  cbn [bind] in H. injection H as <- <-.
  apply generate_position_in_bounds in G.
  now apply case_restart.
Qed.

Lemma resizeEvent_cases (width height : Z) (tp tp' : tape) (b' : GameBoard.t) :
  GameBoard.resizeEvent b width height tp = Ok (b', tp') -> P b'.
Proof using case_same case_resize_keep case_resize_discard.
  clear Hwf case_turn case_restart case_collision case_eat case_advance.
  intros H.
  pose proof (calculate_dimensions_value width height) as Hdim.
  destruct (calculate_dimensions_min _ _ _ _ _ Hdim) as [_ [Hw Hh]].
  set (gw' := Z.max ((width - 4) / 15) 15) in *.
  set (gh' := Z.max ((height - 4) / 15) 15) in *.
  destruct (changed b 15 gw' gh') eqn:Hc.
  2:{ rewrite (resizeEvent_unchanged b _ _ _ _ _ Hdim tp Hc) in H.
      injection H as <- <-. exact case_same. }
  destruct (forallb (GameBoard.pos_valid gw' gh') (Snake.body (GameBoard.snake b)))
    eqn:Hv.
  - rewrite (resizeEvent_smart b _ _ _ _ _ Hdim tp Hc Hv) in H.
    unfold Food.update_grid_size in H.
    destruct (Food.generate_position gw' gh' tp) as [[p tp1]| |];
      try discriminate. cbn [bind] in H.
    destruct (Food.respawn _ (Snake.body (GameBoard.snake b)) tp1)
      as [[f2 tp2]| |] eqn:R; try discriminate. cbn [bind] in H.
    injection H as <- <-. apply respawn_ok in R.
    destruct R as [Rfree [Rw [Rh Rin]]]. cbn in Rw, Rh, Rin.
    apply pos_valid_in_bounds in Hv.
    now apply case_resize_keep.
  - rewrite (resizeEvent_discard b _ _ _ _ _ Hdim tp Hc Hv) in H.
    unfold Food.__init__ in H.
    destruct (Food.generate_position gw' gh' tp) as [[p tp1]| |] eqn:G;
      try discriminate. cbn [bind] in H. injection H as <- <-.
    apply generate_position_in_bounds in G.
    apply case_resize_discard; try assumption; try reflexivity.
    intros F. apply pos_valid_in_bounds in F. unfold s in F.
    rewrite F in Hv. discriminate.
Qed.

Lemma handle_cases (e : event) (tp tp' : tape) (b' : GameBoard.t) :
  handle b e tp = Ok (b', tp') -> P b'.
Proof using All.
  destruct e; cbn [handle].
  - apply update_game_cases.
  - apply keyPressEvent_cases.
  - apply resizeEvent_cases.
Qed.

End HandleCases.

(** Induction over a session: what holds of the constructed board and is kept
    by every event holds of every board the session reaches. *)
Lemma run_invariant (P : GameBoard.t -> Prop) :
  (forall (b b' : GameBoard.t) (e : event) (tp tp' : tape),
      wf b -> P b -> handle b e tp = Ok (b', tp') -> P b') ->
  forall (events : list event) (b b' : GameBoard.t) (tp tp' : tape),
    wf b -> P b -> run b events tp = Ok (b', tp') -> P b'.
Proof.
  intros Step. induction events as [|e events IH]; intros b b' tp tp' W Hp H.
  - injection H as <- <-. exact Hp.
  - cbn [run] in H.
    destruct (handle b e tp) as [[b1 tp1]| |] eqn:E; try discriminate.
    cbn [bind] in H. eapply IH; [| |exact H].
    + eapply wf_handle; eassumption.
    + eapply Step; eassumption.
Qed.

Lemma play_invariant (P : GameBoard.t -> Prop) :
  (forall (b : GameBoard.t) (tp tp' : tape),
      GameBoard.__init__ tp = Ok (b, tp') -> P b) ->
  (forall (b b' : GameBoard.t) (e : event) (tp tp' : tape),
      wf b -> P b -> handle b e tp = Ok (b', tp') -> P b') ->
  forall (events : list event) (b : GameBoard.t) (tp tp' : tape),
    play events tp = Ok (b, tp') -> P b.
Proof.
  intros Init Step events b tp tp' H. unfold play in H.
  destruct (GameBoard.__init__ tp) as [[b0 tp0]| |] eqn:I; try discriminate.
  cbn [bind] in H.
  eapply (run_invariant P Step); [| |exact H].
  - eapply wf_constructor; eassumption.
  - eapply Init; eassumption.
Qed.

Lemma constructor_inv (b : GameBoard.t) (tp tp' : tape) :
  GameBoard.__init__ tp = Ok (b, tp') ->
  exists f,
    b = {| GameBoard.cell_size := 24;
           GameBoard.grid_width := 15; GameBoard.grid_height := 15;
           GameBoard.board_width := 360; GameBoard.board_height := 360;
           GameBoard.snake := Snake.__init__ 15 15;
           GameBoard.food := f; GameBoard.score := 0;
           GameBoard.game_active := true; GameBoard.timer_active := true;
           GameBoard.game_over_emitted := O |}
    /\ Food.grid_width f = 15 /\ Food.grid_height f = 15
    /\ in_bounds 15 15 (Food.position f).
Proof.
  unfold GameBoard.__init__, Food.__init__. intros H.
  destruct (Food.generate_position MIN_GRID_SIZE MIN_GRID_SIZE tp)
    as [[p tp1]| |] eqn:G; try discriminate.
  cbn [bind] in H. injection H as <- <-.
  apply generate_position_in_bounds in G.
  eexists. split; [reflexivity|]. repeat split; apply G.
Qed.

(** ** More on calculate_dimensions and resizeEvent *)

(** X1: whatever the pixel size, [calculate_dimensions] settles on the
    minimum cell size 15: both per-axis candidates are at most 15, so the
    clamp always lifts their minimum to [MIN_CELL_SIZE], and
    [MAX_CELL_SIZE] and [PREFERRED_CELL_SIZE] are never returned.  The grid
    is then [max((pixels - 4) // 15, 15)] cells on each axis. *)
Theorem calculate_dimensions_cell_size (width height cs gw gh : Z) :
  GameBoard.calculate_dimensions width height = Ok (cs, gw, gh) ->
  cs = MIN_CELL_SIZE
  /\ cs <> PREFERRED_CELL_SIZE
  /\ cs <> MAX_CELL_SIZE
  /\ gw = Z.max ((width - 4) / MIN_CELL_SIZE) MIN_GRID_SIZE
  /\ gh = Z.max ((height - 4) / MIN_CELL_SIZE) MIN_GRID_SIZE.
Proof.
  rewrite calculate_dimensions_value. intros E. injection E as <- <- <-.
  unfold MIN_CELL_SIZE, PREFERRED_CELL_SIZE, MAX_CELL_SIZE, MIN_GRID_SIZE.
  repeat split; discriminate.
Qed.

Lemma calculate_dimensions_cell_size_witness :
  GameBoard.calculate_dimensions 1920 1080 = Ok (15, 127, 71)
  /\ 15 = MIN_CELL_SIZE.
Proof.
  split; [reflexivity|].
  exact (proj1 (calculate_dimensions_cell_size 1920 1080 15 127 71 eq_refl)).
Defined.

(** X2: from 229 pixels on, the derived grid fits the available width
    ([width - 4]) and leaves less than one cell unused; below 229 pixels the
    grid is held at 15 cells of 15 pixels and is wider than what is
    available. *)
Theorem calculate_dimensions_fit (width height cs gw gh : Z) :
  GameBoard.calculate_dimensions width height = Ok (cs, gw, gh) ->
  (229 <= width -> gw * cs <= width - 4 < (gw + 1) * cs)
  /\ (229 <= height -> gh * cs <= height - 4 < (gh + 1) * cs)
  /\ (width < 229 -> gw = 15 /\ width - 4 < gw * cs)
  /\ (height < 229 -> gh = 15 /\ height - 4 < gh * cs).
Proof.
  rewrite calculate_dimensions_value. intros E. injection E as <- <- <-.
  pose proof (Z.div_mod (width - 4) 15 ltac:(lia)) as Dw.
  pose proof (Z.mod_pos_bound (width - 4) 15 ltac:(lia)) as Mw.
  pose proof (Z.div_mod (height - 4) 15 ltac:(lia)) as Dh.
  pose proof (Z.mod_pos_bound (height - 4) 15 ltac:(lia)) as Mh.
  repeat split; intros; lia.
Qed.

Lemma calculate_dimensions_fit_witness :
  34 * 15 <= 520 - 4 < (34 + 1) * 15 /\ 200 - 4 < 15 * 15.
Proof.
  destruct (calculate_dimensions_fit 520 200 15 34 15 eq_refl)
    as [Hw [_ [_ Hh]]].
  split; [apply Hw; lia | apply Hh; lia].
Defined.

Lemma resizeEvent_geometry (b b' : GameBoard.t) (width height : Z) (tp tp' : tape) :
  GameBoard.resizeEvent b width height tp = Ok (b', tp') ->
  changed b' 15 (Z.max ((width - 4) / 15) 15) (Z.max ((height - 4) / 15) 15)
  = false.
Proof.
  intros H.
  pose proof (calculate_dimensions_value width height) as Hdim.
  set (gw' := Z.max ((width - 4) / 15) 15) in *.
  set (gh' := Z.max ((height - 4) / 15) 15) in *.
  assert (R : forall s f, changed (resized b 15 gw' gh' s f) 15 gw' gh' = false).
  { intros s f. unfold changed. cbn. now rewrite !Z.eqb_refl. }
  destruct (changed b 15 gw' gh') eqn:Hc.
  2:{ rewrite (resizeEvent_unchanged b _ _ _ _ _ Hdim tp Hc) in H.
      injection H as <- <-. exact Hc. }
  destruct (forallb (GameBoard.pos_valid gw' gh') (Snake.body (GameBoard.snake b)))
    eqn:Hv.
  - rewrite (resizeEvent_smart b _ _ _ _ _ Hdim tp Hc Hv) in H.
    destruct (Food.update_grid_size (GameBoard.food b) gw' gh' tp)
      as [[f tp1]| |]; try discriminate. cbn [bind] in H.
    destruct (Food.respawn f (Snake.body (GameBoard.snake b)) tp1)
      as [[f2 tp2]| |]; try discriminate. cbn [bind] in H.
    injection H as <- <-. apply R.
  - rewrite (resizeEvent_discard b _ _ _ _ _ Hdim tp Hc Hv) in H.
    destruct (Food.__init__ gw' gh' tp) as [[f tp1]| |]; try discriminate.
    cbn [bind] in H. injection H as <- <-. apply R.
Qed.

(** X3: a resize event repeated with the same size does nothing the second
    time: the board is returned as it is and no random number is drawn, so
    neither the food nor the snake is disturbed again. *)
Theorem resizeEvent_twice (b b' : GameBoard.t) (width height : Z) (tp tp' : tape) :
  GameBoard.resizeEvent b width height tp = Ok (b', tp') ->
  forall tp2 : tape, GameBoard.resizeEvent b' width height tp2 = Ok (b', tp2).
Proof.
  intros H tp2. apply resizeEvent_geometry in H.
  exact (resizeEvent_unchanged b' _ _ _ _ _
           (calculate_dimensions_value width height) tp2 H).
Qed.

Lemma resizeEvent_twice_witness :
  exists b',
    GameBoard.resizeEvent scenario_resize 454 454 [3; 3; 5; 5] = Ok (b', [])
    /\ GameBoard.resizeEvent b' 454 454 [8; 8] = Ok (b', [8; 8]).
Proof.
  eexists. split; [vm_compute; reflexivity|].
  apply (resizeEvent_twice scenario_resize _ 454 454 [3; 3; 5; 5] []).
  vm_compute. reflexivity.
Defined.

(** ** Edge behaviour of Snake and Food *)

(** X4: the body built by [Snake.__init__] lies inside the grid exactly when
    the grid is at least 4 cells wide and 1 cell high; on a narrower grid the
    tail starts outside. *)
Theorem init_body_inside_iff (gw gh : Z) :
  Forall (in_bounds gw gh) (Snake.body (Snake.__init__ gw gh))
  <-> 4 <= gw /\ 1 <= gh.
Proof.
  cbn [Snake.__init__ Snake.body].
  pose proof (Z.div_mod gw 2 ltac:(lia)) as Dw.
  pose proof (Z.mod_pos_bound gw 2 ltac:(lia)) as Mw.
  pose proof (Z.div_mod gh 2 ltac:(lia)) as Dh.
  pose proof (Z.mod_pos_bound gh 2 ltac:(lia)) as Mh.
  split.
  - intros F. inversion F as [|? ? [H1 H2] F1]; subst.
    inversion F1 as [|? ? _ F2]; subst.
    inversion F2 as [|? ? [H3 _] _]; subst.
    cbn [fst snd] in H1, H2, H3. lia.
  - intros [Hw Hh]. repeat constructor; cbn [fst snd]; lia.
Qed.

(** X5: on a grid without columns [Food.__init__] and [Food.respawn] raise
    [ValueError] whatever the random source holds; on a grid with columns
    but without rows they raise it as soon as the first draw is made. *)
Theorem food_empty_grid (gw gh : Z) (p : Cell) (snake_body : list Cell) :
  (gw <= 0 ->
   forall tp : tape,
     Food.__init__ gw gh tp = Raise ValueError
     /\ Food.respawn {| Food.grid_width := gw; Food.grid_height := gh;
                        Food.position := p |} snake_body tp
        = Raise ValueError)
  /\ (0 < gw -> gh <= 0 ->
      forall (x : Z) (tp : tape),
        Food.__init__ gw gh (x :: tp) = Raise ValueError
        /\ Food.respawn {| Food.grid_width := gw; Food.grid_height := gh;
                           Food.position := p |} snake_body (x :: tp)
           = Raise ValueError).
Proof.
  split.
  - intros Hw tp. unfold Food.__init__, Food.respawn.
    rewrite respawn_loop_S. cbn [Food.grid_width Food.grid_height].
    unfold Food.generate_position. rewrite randint_nonpos by assumption.
    split; reflexivity.
  - intros Hw Hh x tp. unfold Food.__init__, Food.respawn.
    rewrite respawn_loop_S. cbn [Food.grid_width Food.grid_height].
    unfold Food.generate_position. rewrite randint_pos by assumption.
    cbn [bind]. rewrite randint_nonpos by assumption.
    split; reflexivity.
Qed.

Lemma food_empty_grid_witness :
  Food.__init__ 0 15 [3; 4] = Raise ValueError
  /\ Food.__init__ 15 0 [3; 4] = Raise ValueError.
Proof.
  split.
  - apply (proj1 (food_empty_grid 0 15 (0, 0) []) ltac:(lia) [3; 4]).
  - apply (proj2 (food_empty_grid 15 0 (0, 0) []) ltac:(lia) ltac:(lia) 3 [4]).
Defined.

Lemma no_free_draw (gw gh : Z) (snake_body : list Cell) :
  0 < gw -> 0 < gh ->
  (forall c, in_bounds gw gh c -> In c snake_body) ->
  forall (n : nat) (tp : tape),
    (length tp <= n)%nat -> has_free_draw gw gh snake_body tp = false.
Proof.
  intros Hw Hh Full. induction n as [|n IH]; intros tp Hl.
  - destruct tp; [reflexivity | simpl in Hl; lia].
  - destruct tp as [|x [|y tp]]; try reflexivity.
    cbn [has_free_draw]. simpl in Hl.
    rewrite IH by lia. rewrite orb_false_r.
    assert (I : In (x mod gw, y mod gh) snake_body).
    { apply Full. unfold in_bounds; simpl.
      pose proof (Z.mod_pos_bound x gw Hw).
      pose proof (Z.mod_pos_bound y gh Hh). lia. }
    apply cell_in_In in I. now rewrite I.
Qed.

(** X6: when the snake occupies every cell of the grid, [respawn] rejects
    every draw: on no tape does it return or raise, the loop runs for as
    long as draws are supplied. *)
Theorem respawn_full_grid (f : Food.t) (snake_body : list Cell) (tp : tape) :
  0 < Food.grid_width f -> 0 < Food.grid_height f ->
  (forall c, in_bounds (Food.grid_width f) (Food.grid_height f) c ->
             In c snake_body) ->
  Food.respawn f snake_body tp = OutOfDraws.
Proof.
  intros Hw Hh Full.
  pose proof (no_free_draw _ _ _ Hw Hh Full (length tp) tp (le_n _)) as N.
  destruct (Food.respawn f snake_body tp) as [[f' tp']| |] eqn:R.
  - assert (E : exists f' tp', Food.respawn f snake_body tp = Ok (f', tp'))
      by eauto.
    apply (respawn_returns snake_body f tp Hw Hh) in E. congruence.
  - exfalso. revert R. now apply respawn_loop_no_raise.
  - reflexivity.
Qed.

Lemma respawn_full_grid_witness :
  Food.respawn full_grid_food [(0, 0)] [5; 9; 2; 7; 1; 1] = OutOfDraws.
Proof.
  apply (respawn_full_grid full_grid_food [(0, 0)] [5; 9; 2; 7; 1; 1]);
    [simpl; lia | simpl; lia |].
  intros [x y] [Hx Hy]. simpl in Hx, Hy. left. f_equal; lia.
Defined.

(** ** Following the tail *)

Lemma last_not_in_removelast {A : Type} (l : list A) (d : A) :
  l <> [] -> NoDup l -> ~ In (last l d) (removelast l).
Proof.
  intros Hne Hnd.
  rewrite (app_removelast_last d Hne) in Hnd.
  apply NoDup_remove_2 in Hnd. now rewrite app_nil_r in Hnd.
Qed.

Lemma last_In {A : Type} (l : list A) (d : A) : l <> [] -> In (last l d) l.
Proof.
  intros Hne. rewrite (app_removelast_last d Hne) at 2.
  apply in_or_app. right. left. reflexivity.
Qed.

Lemma NoDup_removelast {A : Type} (l : list A) : NoDup l -> NoDup (removelast l).
Proof.
  intros Hnd. destruct l as [|x l]; [exact Hnd|].
  assert (Hne : x :: l <> []) by discriminate.
  rewrite (app_removelast_last x Hne) in Hnd.
  apply NoDup_remove_1 in Hnd. now rewrite app_nil_r in Hnd.
Qed.

(** X7: a snake whose cells are all different may step onto the cell its
    tail occupies: without pending growth the tail has left it when the
    collision is checked, and [check_collision] answers [False]; with
    growth pending the tail stays and the same step is a collision. *)
Theorem follow_tail (s : Snake.t) (h : Cell) (tl : list Cell) :
  Snake.body s = h :: tl ->
  NoDup (Snake.body s) ->
  add_cell h (Snake.direction s) = last (Snake.body s) h ->
  in_bounds (Snake.grid_width s) (Snake.grid_height s)
            (add_cell h (Snake.direction s)) ->
  exists s',
    Snake.move s = Ok s'
    /\ (Snake.grow s = false -> Snake.check_collision s' = Ok (false, s'))
    /\ (Snake.grow s = true -> Snake.check_collision s' = Ok (true, s')).
Proof.
  intros Hb Hnd Hlast Hin.
  assert (Hne : Snake.body s <> []) by (rewrite Hb; discriminate).
  exists (moved s h). split; [apply (move_cons s h tl Hb)|]. split; intros G.
  - apply (check_collision_false_iff (moved s h) _ _ eq_refl).
    split; [exact Hin|]. rewrite G, Hlast.
    now apply last_not_in_removelast.
  - apply (check_collision_true_iff (moved s h) _ _ eq_refl).
    right. rewrite G, Hlast. now apply last_In.
Qed.

Lemma follow_tail_witness :
  exists s',
    Snake.move scenario_C = Ok s'
    /\ Snake.check_collision s' = Ok (false, s').
Proof.
  destruct (follow_tail scenario_C (5, 5) [(5, 6); (5, 7); (5, 8); (5, 4)]
              eq_refl) as [s' [Hm [Hf _]]].
  - repeat constructor; simpl; intuition discriminate.
  - reflexivity.
  - simpl. unfold in_bounds. simpl. lia.
  - exists s'. split; [exact Hm | apply Hf; reflexivity].
Defined.

(** ** The game_over signal *)

Lemma update_game_signal (b b' : GameBoard.t) (tp tp' : tape) :
  GameBoard.update_game b tp = Ok (b', tp') ->
  GameBoard.game_over_emitted b' =
    (GameBoard.game_over_emitted b
     + (if GameBoard.game_active b && negb (GameBoard.game_active b')
        then 1 else 0))%nat.
Proof.
  intros H. destruct (GameBoard.game_active b) eqn:Ha.
  2:{ rewrite update_game_inactive in H by assumption.
      injection H as <- <-. rewrite Ha. cbn [andb]. lia. }
  destruct (Snake.body (GameBoard.snake b)) as [|h tl] eqn:Hb.
  { unfold GameBoard.update_game, Snake.move in H. rewrite Ha, Hb in H.
    discriminate. }
  rewrite (update_game_active b tp h tl Ha Hb) in H. cbv zeta in H.
  destruct (collides (GameBoard.snake b) h).
  - injection H as <- <-. cbn. lia.
  - destruct (cell_eqb _ _).
    + destruct (Food.respawn _ _ tp) as [[f tp1]| |]; try discriminate.
      cbn [bind] in H. injection H as <- <-. cbn. lia.
    + injection H as <- <-. cbn. rewrite Ha. cbn. lia.
Qed.

(** X8: a tick emits [game_over] exactly when it takes the game from active
    to over, and then once; it also stops the game timer and leaves the score
    alone.  A tick never reactivates a game, and on a game that is over it
    changes nothing and draws nothing. *)
Theorem update_game_emission (b b' : GameBoard.t) (tp tp' : tape) :
  GameBoard.update_game b tp = Ok (b', tp') ->
  GameBoard.game_over_emitted b' =
    (GameBoard.game_over_emitted b
     + (if GameBoard.game_active b && negb (GameBoard.game_active b')
        then 1 else 0))%nat
  /\ (GameBoard.game_active b' = true -> GameBoard.game_active b = true)
  /\ (GameBoard.game_active b = false -> b' = b /\ tp' = tp)
  /\ (GameBoard.game_active b = true -> GameBoard.game_active b' = false ->
      GameBoard.timer_active b' = false
      /\ GameBoard.score b' = GameBoard.score b /\ tp' = tp).
Proof.
  intros H. destruct (GameBoard.game_active b) eqn:Ha.
  2:{ rewrite update_game_inactive in H by assumption.
      injection H as <- <-. rewrite Ha. cbn [andb].
      repeat split; try congruence. lia. }
  destruct (Snake.body (GameBoard.snake b)) as [|h tl] eqn:Hb.
  { unfold GameBoard.update_game, Snake.move in H. rewrite Ha, Hb in H.
    discriminate. }
  rewrite (update_game_active b tp h tl Ha Hb) in H. cbv zeta in H.
  destruct (collides (GameBoard.snake b) h).
  - injection H as <- <-. cbn. repeat split; try congruence. lia.
  - destruct (cell_eqb _ _).
    + destruct (Food.respawn _ _ tp) as [[f tp1]| |]; try discriminate.
      cbn [bind] in H. injection H as <- <-. cbn.
      repeat split; try congruence; try discriminate. lia.
    + injection H as <- <-. cbn. rewrite Ha. cbn.
      repeat split; try congruence; try discriminate. lia.
Qed.

Lemma update_game_emission_witness :
  exists b',
    GameBoard.update_game scenario_B [] = Ok (b', [])
    /\ GameBoard.game_over_emitted b' = 1%nat
    /\ GameBoard.update_game b' [] = Ok (b', []).
Proof.
  eexists. split; [vm_compute; reflexivity|].
  match goal with
  | |- GameBoard.game_over_emitted ?x = _ /\ _ =>
      destruct (update_game_emission scenario_B x [] [] eq_refl)
        as [He _];
      split; [exact He|]
  end.
  reflexivity.
Defined.

(** ** What a session keeps *)

Lemma timer_follows_step (b b' : GameBoard.t) (e : event) (tp tp' : tape) :
  wf b -> timer_follows b -> handle b e tp = Ok (b', tp') -> timer_follows b'.
Proof.
  intros W Hp H. unfold timer_follows in Hp.
  refine (handle_cases timer_follows b W _ _ _ _ _ _ _ _ e tp tp' b' H);
    unfold timer_follows, resized; intros; cbn;
    rewrite ?Hp; try assumption; try reflexivity.
  - destruct (GameBoard.game_active b); reflexivity.
  - destruct (GameBoard.game_active b); reflexivity.
Qed.

(** X9: on every board a session reaches, the game timer is running exactly
    when the game is active: a collision stops it, a restart starts it, and
    a resize puts it back as it was. *)
Theorem timer_runs_while_active
  (events : list event) (tp tp' : tape) (b : GameBoard.t) :
  play events tp = Ok (b, tp') ->
  GameBoard.timer_active b = GameBoard.game_active b.
Proof.
  apply (play_invariant timer_follows).
  - intros b0 tp0 tp1 I. apply constructor_inv in I.
    destruct I as [f [-> _]]. reflexivity.
  - exact timer_follows_step.
Qed.

Lemma timer_runs_while_active_witness :
  exists b tp',
    play [Tick; Tick; KeyPress Key_Up; Tick; Resize 454 454; Tick]
         [9; 7; 3; 3; 4; 4; 0; 1] = Ok (b, tp')
    /\ GameBoard.timer_active b = GameBoard.game_active b.
Proof.
  do 2 eexists. split; [vm_compute; reflexivity|].
  eapply (timer_runs_while_active
            [Tick; Tick; KeyPress Key_Up; Tick; Resize 454 454; Tick]
            [9; 7; 3; 3; 4; 4; 0; 1]).
  vm_compute. reflexivity.
Defined.

Lemma geometry_ok_step (b b' : GameBoard.t) (e : event) (tp tp' : tape) :
  wf b -> geometry_ok b -> handle b e tp = Ok (b', tp') -> geometry_ok b'.
Proof.
  intros W Hp H.
  refine (handle_cases geometry_ok b W _ _ _ _ _ _ _ _ e tp tp' b' H);
    try (intros; exact Hp);
    intros; unfold geometry_ok, resized; cbn; auto.
Qed.

(** X10: on every board a session reaches, the board is as wide and as high
    as its grid times its cell size, and the cell size is 15 pixels, or the
    preferred 24 pixels on the 15 x 15 grid the constructor sets up: the
    first resize that changes anything brings it down to 15 for good. *)
Theorem board_geometry
  (events : list event) (tp tp' : tape) (b : GameBoard.t) :
  play events tp = Ok (b, tp') ->
  GameBoard.board_width b = GameBoard.grid_width b * GameBoard.cell_size b
  /\ GameBoard.board_height b = GameBoard.grid_height b * GameBoard.cell_size b
  /\ (GameBoard.cell_size b = 15
      \/ (GameBoard.cell_size b = 24
          /\ GameBoard.grid_width b = 15 /\ GameBoard.grid_height b = 15)).
Proof.
  apply (play_invariant geometry_ok).
  - intros b0 tp0 tp1 I. apply constructor_inv in I.
    destruct I as [f [-> _]]. unfold geometry_ok. cbn.
    split; [reflexivity|]. split; [reflexivity|]. right. repeat split.
  - exact geometry_ok_step.
Qed.

Lemma board_geometry_witness :
  exists b tp',
    play [Tick; Resize 454 454; Tick] [9; 7; 4; 4; 0; 1] = Ok (b, tp')
    /\ GameBoard.board_width b = GameBoard.grid_width b * GameBoard.cell_size b.
Proof.
  do 2 eexists. split; [vm_compute; reflexivity|].
  eapply (board_geometry [Tick; Resize 454 454; Tick] [9; 7; 4; 4; 0; 1]).
  vm_compute. reflexivity.
Defined.

Lemma food_in_grid_step (b b' : GameBoard.t) (e : event) (tp tp' : tape) :
  wf b -> food_in_grid b -> handle b e tp = Ok (b', tp') -> food_in_grid b'.
Proof.
  intros W Hp H.
  refine (handle_cases food_in_grid b W _ _ _ _ _ _ _ _ e tp tp' b' H);
    try (intros; exact Hp);
    intros; unfold food_in_grid, resized; cbn; assumption.
Qed.

(** X11: on every board a session reaches, the food lies inside the grid,
    and its own grid dimensions are those of the board. *)
Theorem food_inside_grid
  (events : list event) (tp tp' : tape) (b : GameBoard.t) :
  play events tp = Ok (b, tp') ->
  in_bounds (GameBoard.grid_width b) (GameBoard.grid_height b)
            (Food.position (GameBoard.food b))
  /\ Food.grid_width (GameBoard.food b) = GameBoard.grid_width b
  /\ Food.grid_height (GameBoard.food b) = GameBoard.grid_height b.
Proof.
  intros H. split.
  - revert H. apply (play_invariant food_in_grid).
    + intros b0 tp0 tp1 I. apply constructor_inv in I.
      destruct I as [f [-> [_ [_ Hin]]]]. exact Hin.
    + exact food_in_grid_step.
  - apply wf_play in H. split; apply H.
Qed.

Lemma food_inside_grid_witness :
  exists b tp',
    play [Tick; Resize 454 454; Tick] [9; 7; 4; 4; 0; 1] = Ok (b, tp')
    /\ in_bounds (GameBoard.grid_width b) (GameBoard.grid_height b)
                 (Food.position (GameBoard.food b)).
Proof.
  do 2 eexists. split; [vm_compute; reflexivity|].
  eapply (food_inside_grid [Tick; Resize 454 454; Tick] [9; 7; 4; 4; 0; 1]).
  vm_compute. reflexivity.
Defined.

Lemma chain_removelast (cells : list Cell) :
  chain cells = true -> chain (removelast cells) = true.
Proof.
  induction cells as [|a rest IH]; [reflexivity|].
  destruct rest as [|c rest]; [reflexivity|].
  intros H. cbn [chain] in H. apply andb_true_iff in H. destruct H as [Hac Hr].
  specialize (IH Hr).
  change (removelast (a :: c :: rest)) with (a :: removelast (c :: rest)).
  destruct rest as [|c' rest]; [reflexivity|].
  change (removelast (c :: c' :: rest)) with (c :: removelast (c' :: rest)) in *.
  cbn [chain]. cbn [chain] in IH. now rewrite Hac, IH.
Qed.

Lemma adjacent_step (h : Cell) (d : Heading) :
  adjacent (add_cell h (DIRECTIONS d)) h = true.
Proof.
  unfold adjacent, add_cell. apply Z.eqb_eq. destruct d; simpl; lia.
Qed.

Lemma chain_moved (s : Snake.t) (h : Cell) (tl : list Cell) (d : Heading) :
  Snake.body s = h :: tl ->
  Snake.direction s = DIRECTIONS d ->
  chain (Snake.body s) = true ->
  chain (Snake.body (moved s h)) = true.
Proof.
  intros Hb Hd Hc. cbn [moved Snake.body]. rewrite Hd.
  destruct (Snake.grow s).
  - rewrite Hb. cbn [chain]. rewrite adjacent_step. rewrite Hb in Hc. exact Hc.
  - apply chain_removelast in Hc. rewrite Hb in Hc |- *.
    destruct tl as [|c tl]; [reflexivity|].
    change (removelast (h :: c :: tl)) with (h :: removelast (c :: tl)) in *.
    cbn [chain]. rewrite adjacent_step. exact Hc.
Qed.

Lemma init_shape (gw gh : Z) :
  chain (Snake.body (Snake.__init__ gw gh)) = true
  /\ NoDup (Snake.body (Snake.__init__ gw gh)).
Proof.
  cbn [Snake.__init__ Snake.body]. split.
  - cbn [chain]. unfold adjacent. cbn [fst snd].
    rewrite !andb_true_iff, !Z.eqb_eq. lia.
  - repeat constructor; simpl; intros F;
      repeat (destruct F as [F|F]; [injection F; lia|]); exact F.
Qed.

Lemma shape_ok_step (b b' : GameBoard.t) (e : event) (tp tp' : tape) :
  wf b -> shape_ok b -> handle b e tp = Ok (b', tp') -> shape_ok b'.
Proof.
  intros W Hp H. pose proof Hp as [[d Hd] [Hc Hl]].
  assert (M : forall h tl, Snake.body (GameBoard.snake b) = h :: tl ->
                (exists d0, Snake.direction (moved (GameBoard.snake b) h)
                            = DIRECTIONS d0)
                /\ chain (Snake.body (moved (GameBoard.snake b) h)) = true
                /\ (3 <= length (Snake.body (moved (GameBoard.snake b) h)))%nat).
  { intros h tl Hb. split; [exists d; exact Hd|].
    split; [apply (chain_moved _ h tl d Hb Hd Hc)|].
    rewrite (moved_length _ h tl Hb). lia. }
  assert (I : forall gw gh,
                (exists d0, Snake.direction (Snake.__init__ gw gh) = DIRECTIONS d0)
                /\ chain (Snake.body (Snake.__init__ gw gh)) = true
                /\ (3 <= length (Snake.body (Snake.__init__ gw gh)))%nat).
  { intros gw gh. split; [exists RIGHT; reflexivity|].
    split; [apply init_shape | simpl; lia]. }
  refine (handle_cases shape_ok b W _ _ _ _ _ _ _ _ e tp tp' b' H);
    try (intros; exact Hp);
    try (intros; unfold shape_ok; cbn [resized GameBoard.set_timer
           GameBoard.set_session GameBoard.set_objects GameBoard.snake];
         apply I);
    try (intros h tl; intros; unfold shape_ok;
         cbn [GameBoard.emit_game_over GameBoard.set_timer
              GameBoard.set_session GameBoard.set_objects GameBoard.snake];
         apply (M h tl); assumption).
  - intros d0. unfold shape_ok, GameBoard.change_direction, Snake.change_direction.
    destruct (negb _); cbn; [|exact Hp].
    split; [exists d0; reflexivity|]. split; assumption.
Qed.

(** X12: on every board a session reaches, the snake's direction is one of
    the four headings, its body has at least three cells, and every body cell
    is one step along one axis from the next: the body is a connected path. *)
Theorem body_is_a_path
  (events : list event) (tp tp' : tape) (b : GameBoard.t) :
  play events tp = Ok (b, tp') ->
  (exists d : Heading, Snake.direction (GameBoard.snake b) = DIRECTIONS d)
  /\ chain (Snake.body (GameBoard.snake b)) = true
  /\ (3 <= length (Snake.body (GameBoard.snake b)))%nat.
Proof.
  apply (play_invariant shape_ok).
  - intros b0 tp0 tp1 I. apply constructor_inv in I.
    destruct I as [f [-> _]]. unfold shape_ok. cbn.
    split; [exists RIGHT; reflexivity|]. split; [reflexivity | lia].
  - exact shape_ok_step.
Qed.

Lemma body_is_a_path_witness :
  exists b tp',
    play [Tick; Tick; KeyPress Key_Up; Tick; Resize 454 454; Tick]
         [9; 7; 3; 3; 4; 4; 0; 1] = Ok (b, tp')
    /\ chain (Snake.body (GameBoard.snake b)) = true
    /\ length (Snake.body (GameBoard.snake b)) = 4%nat.
Proof.
  do 2 eexists. split; [vm_compute; reflexivity|].
  split; [|reflexivity].
  eapply (body_is_a_path
            [Tick; Tick; KeyPress Key_Up; Tick; Resize 454 454; Tick]
            [9; 7; 3; 3; 4; 4; 0; 1]).
  vm_compute. reflexivity.
Defined.

Lemma NoDup_moved (s : Snake.t) (h : Cell) :
  collides s h = false -> NoDup (Snake.body s) ->
  NoDup (Snake.body (moved s h)).
Proof.
  intros C Hnd. apply collides_false in C. destruct C as [_ Hfree].
  cbn [moved Snake.body]. constructor; [exact Hfree|].
  destruct (Snake.grow s); [exact Hnd | now apply NoDup_removelast].
Qed.

Lemma simple_body_step (b b' : GameBoard.t) (e : event) (tp tp' : tape) :
  wf b -> simple_body b -> handle b e tp = Ok (b', tp') -> simple_body b'.
Proof.
  intros W Hp H.
  refine (handle_cases simple_body b W _ _ _ _ _ _ _ _ e tp tp' b' H);
    try (intros; exact Hp).
  - intros d. unfold simple_body, GameBoard.change_direction,
      Snake.change_direction. destruct (negb _); cbn; exact Hp.
  - intros. intros _. cbn. apply init_shape.
  - intros. intros F. cbn in F. discriminate.
  - intros h tl f Ha Hb C. intros. intros _. cbn.
    apply (NoDup_moved _ h C (Hp Ha)).
  - intros h tl Ha Hb C. intros. intros _. cbn.
    apply (NoDup_moved _ h C (Hp Ha)).
  - intros. intros _. cbn. apply init_shape.
Qed.

(** X13: on every board a session reaches, while the game is active no cell
    occurs twice in the body: a move that would repeat a cell ends the game
    on the same tick. *)
Theorem active_body_has_no_repeats
  (events : list event) (tp tp' : tape) (b : GameBoard.t) :
  play events tp = Ok (b, tp') ->
  GameBoard.game_active b = true ->
  NoDup (Snake.body (GameBoard.snake b)).
Proof.
  apply (play_invariant simple_body).
  - intros b0 tp0 tp1 I. apply constructor_inv in I.
    destruct I as [f [-> _]]. intros _. apply (init_shape 15 15).
  - exact simple_body_step.
Qed.

Lemma active_body_has_no_repeats_witness :
  exists b tp',
    play [Tick; Tick; KeyPress Key_Up; Tick; Resize 454 454; Tick]
         [9; 7; 3; 3; 4; 4; 0; 1] = Ok (b, tp')
    /\ NoDup (Snake.body (GameBoard.snake b)).
Proof.
  do 2 eexists. split; [vm_compute; reflexivity|].
  eapply (active_body_has_no_repeats
            [Tick; Tick; KeyPress Key_Up; Tick; Resize 454 454; Tick]
            [9; 7; 3; 3; 4; 4; 0; 1]).
  - vm_compute. reflexivity.
  - reflexivity.
Defined.

Lemma score_ok_step (b b' : GameBoard.t) (e : event) (tp tp' : tape) :
  wf b -> score_ok b -> handle b e tp = Ok (b', tp') -> score_ok b'.
Proof.
  intros W Hp H.
  refine (handle_cases score_ok b W _ _ _ _ _ _ _ _ e tp tp' b' H);
    try (intros; exact Hp).
  - intros. unfold score_ok. cbn. split; [lia | reflexivity].
  - intros h tl f Ha Hb C. intros. destruct Hp as [Hs Hm].
    unfold score_ok. cbn. split; [lia|].
    rewrite Z.add_mod, Hm by lia. reflexivity.
Qed.

(** X14: on every board a session reaches, the score is a non-negative
    multiple of 10: it only ever grows by 10, returns to 0 on a restart, or
    is carried over a resize. *)
Theorem score_multiple_of_ten
  (events : list event) (tp tp' : tape) (b : GameBoard.t) :
  play events tp = Ok (b, tp') ->
  0 <= GameBoard.score b /\ GameBoard.score b mod 10 = 0.
Proof.
  apply (play_invariant score_ok).
  - intros b0 tp0 tp1 I. apply constructor_inv in I.
    destruct I as [f [-> _]]. unfold score_ok. cbn. split; [lia | reflexivity].
  - exact score_ok_step.
Qed.

Lemma score_multiple_of_ten_witness :
  exists b tp',
    play [Tick; Tick; KeyPress Key_Up; Tick; Resize 454 454; Tick]
         [9; 7; 3; 3; 4; 4; 0; 1] = Ok (b, tp')
    /\ GameBoard.score b = 10
    /\ GameBoard.score b mod 10 = 0.
Proof.
  do 2 eexists. split; [vm_compute; reflexivity|].
  split; [reflexivity|].
  eapply (score_multiple_of_ten
            [Tick; Tick; KeyPress Key_Up; Tick; Resize 454 454; Tick]
            [9; 7; 3; 3; 4; 4; 0; 1]).
  vm_compute. reflexivity.
Defined.

(** Induction over a session whose events all pass a test. *)
Lemma run_invariant_where (Q : event -> bool) (P : GameBoard.t -> Prop) :
  (forall (b b' : GameBoard.t) (e : event) (tp tp' : tape),
      Q e = true -> wf b -> P b -> handle b e tp = Ok (b', tp') -> P b') ->
  forall (events : list event) (b b' : GameBoard.t) (tp tp' : tape),
    forallb Q events = true ->
    wf b -> P b -> run b events tp = Ok (b', tp') -> P b'.
Proof.
  intros Step. induction events as [|e events IH]; intros b b' tp tp' HQ W Hp H.
  - injection H as <- <-. exact Hp.
  - cbn [run] in H. cbn [forallb] in HQ. apply andb_true_iff in HQ.
    destruct HQ as [Qe Qs].
    destruct (handle b e tp) as [[b1 tp1]| |] eqn:E; try discriminate.
    cbn [bind] in H. eapply (IH b1 b' tp1 tp' Qs); [| |exact H].
    + eapply wf_handle; eassumption.
    + eapply Step; eassumption.
Qed.

Lemma score_tracks_length_step (b b' : GameBoard.t) (e : event) (tp tp' : tape) :
  negb (is_resize e) = true ->
  wf b -> score_tracks_length b -> handle b e tp = Ok (b', tp') ->
  score_tracks_length b'.
Proof.
  intros Q W Hp H.
  assert (M : forall h tl,
             Snake.body (GameBoard.snake b) = h :: tl ->
             GameBoard.score b =
               10 * (Z.of_nat (length (Snake.body (moved (GameBoard.snake b) h))) - 3)).
  { intros h tl Hb. rewrite (moved_length _ h tl Hb).
    unfold score_tracks_length in Hp. rewrite Hp.
    destruct (Snake.grow (GameBoard.snake b)); lia. }
  destruct e as [|key|w h]; [| |discriminate Q]; clear Q; cbn [handle] in H.
  - refine (update_game_cases score_tracks_length b W Hp _ _ _ tp tp' b' H).
    + intros h tl Ha Hb C. unfold score_tracks_length. cbn.
      rewrite (M h tl Hb). cbn. lia.
    + intros h tl f Ha Hb C. intros. unfold score_tracks_length. cbn.
      rewrite (M h tl Hb). cbn. lia.
    + intros h tl Ha Hb C. intros. unfold score_tracks_length. cbn.
      rewrite (M h tl Hb). cbn. lia.
  - refine (keyPressEvent_cases score_tracks_length b Hp _ _ key tp tp' b' H).
    + intros d. unfold score_tracks_length, GameBoard.change_direction,
        Snake.change_direction. destruct (negb _); cbn; exact Hp.
    + intros. unfold score_tracks_length. cbn. reflexivity.
Qed.

(** X15: in a session without resize events the score is always ten times
    the number of cells the body has gained over its initial three, counting
    the cell still owed after the last meal: points and growth stay in
    step. *)
Theorem score_matches_growth
  (events : list event) (tp tp' : tape) (b : GameBoard.t) :
  forallb (fun e => negb (is_resize e)) events = true ->
  play events tp = Ok (b, tp') ->
  GameBoard.score b =
    10 * (Z.of_nat (length (Snake.body (GameBoard.snake b))) - 3)
    + (if Snake.grow (GameBoard.snake b) then 10 else 0).
Proof.
  intros HQ H. unfold play in H.
  destruct (GameBoard.__init__ tp) as [[b0 tp0]| |] eqn:I; try discriminate.
  cbn [bind] in H.
  refine (run_invariant_where (fun e => negb (is_resize e)) score_tracks_length
            score_tracks_length_step events b0 b tp0 tp' HQ _ _ H).
  - eapply wf_constructor; eassumption.
  - apply constructor_inv in I. destruct I as [f [-> _]]. reflexivity.
Qed.

Lemma score_matches_growth_witness :
  exists b tp',
    play [Tick; Tick; KeyPress Key_Up; Tick; Tick] [9; 7; 3; 3] = Ok (b, tp')
    /\ GameBoard.score b = 10
    /\ length (Snake.body (GameBoard.snake b)) = 4%nat.
Proof.
  do 2 eexists. split; [vm_compute; reflexivity|].
  split; [|reflexivity].
  rewrite (score_matches_growth [Tick; Tick; KeyPress Key_Up; Tick; Tick]
             [9; 7; 3; 3] _ _ eq_refl ltac:(vm_compute; reflexivity)).
  reflexivity.
Defined.

(** ** The food and the body between restarts *)

Lemma collides_true (s : Snake.t) (h : Cell) :
  collides s h = true ->
  outside (Snake.grid_width s) (Snake.grid_height s)
          (add_cell h (Snake.direction s))
  \/ In (add_cell h (Snake.direction s))
        (if Snake.grow s then Snake.body s else removelast (Snake.body s)).
Proof.
  unfold collides. cbv zeta. intros C. apply orb_true_iff in C.
  destruct C as [C|C]; [left; now apply outside_test | right; now apply cell_in_In].
Qed.

Lemma rest_in_body (s : Snake.t) (c : Cell) :
  In c (if Snake.grow s then Snake.body s else removelast (Snake.body s)) ->
  In c (Snake.body s).
Proof.
  destruct (Snake.grow s); [tauto | apply removelast_incl].
Qed.

Lemma food_off_body_step (b b' : GameBoard.t) (e : event) (tp tp' : tape) :
  is_steering e = true ->
  wf b -> food_in_grid b /\ food_off_body b ->
  handle b e tp = Ok (b', tp') ->
  food_in_grid b' /\ food_off_body b'.
Proof.
  intros Q W [Hin Hoff] H.
  assert (M : forall h,
             add_cell h (Snake.direction (GameBoard.snake b))
               <> Food.position (GameBoard.food b) ->
             ~ In (Food.position (GameBoard.food b))
                  (Snake.body (moved (GameBoard.snake b) h))).
  { intros h Hne [E|F]; [now apply Hne|].
    apply Hoff. now apply rest_in_body. }
  destruct e as [|key|w h]; [| |discriminate Q]; cbn [handle] in H.
  - clear Q.
    refine (update_game_cases (fun x => food_in_grid x /\ food_off_body x)
              b W (conj Hin Hoff) _ _ _ tp tp' b' H).
    + intros h tl Ha Hb C. split; [exact Hin|].
      unfold food_off_body. cbn. apply M. intros E.
      apply collides_true in C. destruct C as [C|C].
      * rewrite E, (wf_snake_width b W), (wf_snake_height b W) in C.
        unfold food_in_grid, in_bounds in Hin. unfold outside in C. lia.
      * rewrite E in C. apply Hoff. now apply rest_in_body.
    + intros h tl f Ha Hb C E Fw Fh Fin Ffree. split.
      * unfold food_in_grid. cbn. exact Fin.
      * unfold food_off_body. cbn. exact Ffree.
    + intros h tl Ha Hb C E. split; [exact Hin|].
      unfold food_off_body. cbn. now apply M.
  - destruct key; try discriminate Q; clear Q;
      cbn [GameBoard.keyPressEvent] in H; injection H as <- <-;
      try (split; assumption);
      (split; [exact Hin|]);
      unfold food_off_body, GameBoard.change_direction, Snake.change_direction;
      destruct (negb _); cbn; exact Hoff.
Qed.

(** X16: once the food is off the body, timer ticks and arrow keys keep it
    off, whether a tick ends the game, eats or just advances: only a restart
    or a resize can put the food under the snake. *)
Theorem food_stays_off_body
  (before events : list event) (tp tp1 tp2 : tape) (b b' : GameBoard.t) :
  play before tp = Ok (b, tp1) ->
  ~ In (Food.position (GameBoard.food b)) (Snake.body (GameBoard.snake b)) ->
  forallb is_steering events = true ->
  run b events tp1 = Ok (b', tp2) ->
  ~ In (Food.position (GameBoard.food b')) (Snake.body (GameBoard.snake b')).
Proof.
  intros Hplay Hoff HQ Hrun.
  assert (W : wf b) by (eapply wf_play; eassumption).
  assert (Hin : food_in_grid b).
  { revert Hplay. apply (play_invariant food_in_grid).
    - intros b0 tp0 tp3 I. apply constructor_inv in I.
      destruct I as [f [-> [_ [_ Hf]]]]. exact Hf.
    - exact food_in_grid_step. }
  apply (run_invariant_where is_steering
           (fun x => food_in_grid x /\ food_off_body x)
           food_off_body_step events b b' tp1 tp2 HQ W (conj Hin Hoff) Hrun).
Qed.

Lemma food_stays_off_body_witness :
  exists b b' tp2,
    play [Tick] [9; 7; 3; 3] = Ok (b, [3; 3])
    /\ run b [Tick; KeyPress Key_Up; Tick; Tick] [3; 3] = Ok (b', tp2)
    /\ ~ In (Food.position (GameBoard.food b')) (Snake.body (GameBoard.snake b')).
Proof.
  do 3 eexists. split; [vm_compute; reflexivity|].
  split; [vm_compute; reflexivity|].
  eapply (food_stays_off_body [Tick] [Tick; KeyPress Key_Up; Tick; Tick]
            [9; 7; 3; 3] [3; 3] _ _ _ ltac:(vm_compute; reflexivity)).
  - simpl. intuition discriminate.
  - reflexivity.
  - vm_compute. reflexivity.
Defined.

(** ** What paintEvent draws *)

Lemma range_In (n x : Z) : In x (range n) <-> 0 <= x < n.
Proof.
  unfold range. rewrite in_map_iff. split.
  - intros [k [<- Hk]]. apply in_seq in Hk. lia.
  - intros Hx. exists (Z.to_nat x). split; [lia|]. apply in_seq. lia.
Qed.

Lemma range_length (n : Z) : length (range n) = Z.to_nat n.
Proof. unfold range. now rewrite length_map, length_seq. Qed.

Lemma flat_map_constant_length {A B : Type} (f : A -> list B) (m : nat) (l : list A) :
  (forall x, length (f x) = m) -> length (flat_map f l) = (length l * m)%nat.
Proof.
  intros Hf. induction l as [|x l IH]; [reflexivity|].
  cbn [flat_map length]. rewrite length_app, Hf, IH. lia.
Qed.

Lemma reached_facts (events : list event) (tp tp' : tape) (b : GameBoard.t) :
  play events tp = Ok (b, tp') -> wf b /\ geometry_ok b /\ food_in_grid b.
Proof.
  intros H. split; [eapply wf_play; eassumption|]. split.
  - revert H. apply (play_invariant geometry_ok).
    + intros b0 tp0 tp1 I. apply constructor_inv in I.
      destruct I as [f [-> _]]. unfold geometry_ok. cbn.
      split; [reflexivity|]. split; [reflexivity|]. right. repeat split.
    + exact geometry_ok_step.
  - revert H. apply (play_invariant food_in_grid).
    + intros b0 tp0 tp1 I. apply constructor_inv in I.
      destruct I as [f [-> [_ [_ Hf]]]]. exact Hf.
    + exact food_in_grid_step.
Qed.

(** X17: on every board a session reaches, [paintEvent] draws one grid
    rectangle per cell, all of them inside the board rectangle, the food
    inside the board, and, while the game is active, every snake segment
    inside the board. *)
Theorem painted_inside_board
  (events : list event) (tp tp' : tape) (b : GameBoard.t)
  (widget_width widget_height : Z) :
  play events tp = Ok (b, tp') ->
  let p := GameBoard.paintEvent b widget_width widget_height in
  let inside r :=
    rect_within r 0 0 (GameBoard.board_width b) (GameBoard.board_height b) in
  length (GameBoard.grid_rects p)
    = (Z.to_nat (GameBoard.grid_width b) * Z.to_nat (GameBoard.grid_height b))%nat
  /\ Forall inside (GameBoard.grid_rects p)
  /\ inside (GameBoard.food_rect p)
  /\ (GameBoard.game_active b = true -> Forall inside (GameBoard.snake_rects p)).
Proof.
  intros H p inside. subst p inside.
  destruct (reached_facts _ _ _ _ H) as [W [[Gw [Gh Gc]] Hfood]].
  cbn [GameBoard.paintEvent GameBoard.grid_rects GameBoard.food_rect
       GameBoard.snake_rects].
  assert (C : 15 <= GameBoard.cell_size b <= 24) by lia.
  split; [|split; [|split]].
  - unfold GameBoard.draw_grid.
    rewrite (flat_map_constant_length _ (Z.to_nat (GameBoard.grid_height b)))
      by (intros x; now rewrite length_map, range_length).
    now rewrite range_length.
  - apply Forall_forall. intros r Hr. unfold GameBoard.draw_grid in Hr.
    apply in_flat_map in Hr. destruct Hr as [x [Hx Hr]].
    apply in_map_iff in Hr. destruct Hr as [y [<- Hy]].
    apply range_In in Hx, Hy. unfold rect_within. cbn. rewrite Gw, Gh. nia.
  - unfold food_in_grid, in_bounds in Hfood.
    unfold rect_within, GameBoard.draw_food. cbn. rewrite Gw, Gh. nia.
  - intros Ha. pose proof (wf_bounds b W Ha) as B. unfold body_in_grid in B.
    unfold GameBoard.draw_snake. apply Forall_map.
    eapply Forall_impl; [|exact B].
    intros seg [Hx Hy]. unfold rect_within. cbn. rewrite Gw, Gh. nia.
Qed.

Lemma painted_inside_board_witness :
  exists b tp',
    play [Tick; Resize 454 454; Tick] [9; 7; 4; 4; 0; 1] = Ok (b, tp')
    /\ length (GameBoard.grid_rects (GameBoard.paintEvent b 454 454)) = 900%nat
    /\ rect_within (GameBoard.food_rect (GameBoard.paintEvent b 454 454))
         0 0 (GameBoard.board_width b) (GameBoard.board_height b).
Proof.
  do 2 eexists. split; [vm_compute; reflexivity|].
  match goal with
  | |- length (GameBoard.grid_rects (GameBoard.paintEvent ?x _ _)) = _ /\ _ =>
      destruct (painted_inside_board [Tick; Resize 454 454; Tick]
                  [9; 7; 4; 4; 0; 1] [] x 454 454
                  ltac:(vm_compute; reflexivity)) as [Hl [_ [Hf _]]]
  end.
  split; [rewrite Hl; reflexivity | exact Hf].
Defined.

(** X18: after a resize event for a widget of at least 229 x 229 pixels, the
    board is painted centred inside the widget, at least 2 pixels from each
    edge. *)
Theorem board_centred_after_resize
  (events : list event) (tp tp1 tp2 : tape) (b b' : GameBoard.t)
  (width height : Z) :
  play events tp = Ok (b, tp1) ->
  GameBoard.resizeEvent b width height tp1 = Ok (b', tp2) ->
  229 <= width -> 229 <= height ->
  let p := GameBoard.paintEvent b' width height in
  2 <= fst (GameBoard.origin p)
  /\ fst (GameBoard.origin p) + GameBoard.board_width b' <= width - 2
  /\ 2 <= snd (GameBoard.origin p)
  /\ snd (GameBoard.origin p) + GameBoard.board_height b' <= height - 2.
Proof.
  intros Hplay Hr Hw Hh p. subst p.
  destruct (reached_facts _ _ _ _ Hplay) as [W [G _]].
  pose proof (geometry_ok_step b b' (Resize width height) tp1 tp2 W G Hr)
    as [Gw [Gh _]].
  apply resizeEvent_geometry in Hr. unfold changed in Hr.
  rewrite !orb_false_iff, !negb_false_iff, !Z.eqb_eq in Hr.
  destruct Hr as [[Ec Ew] Eh].
  cbn [GameBoard.paintEvent GameBoard.origin fst snd].
  rewrite Gw, Gh, <- Ec, <- Ew, <- Eh.
  pose proof (Z.div_mod (width - 4) 15 ltac:(lia)) as Dw.
  pose proof (Z.mod_pos_bound (width - 4) 15 ltac:(lia)) as Mw.
  pose proof (Z.div_mod (height - 4) 15 ltac:(lia)) as Dh.
  pose proof (Z.mod_pos_bound (height - 4) 15 ltac:(lia)) as Mh.
  set (gw := Z.max ((width - 4) / 15) 15) in *.
  set (gh := Z.max ((height - 4) / 15) 15) in *.
  assert (Bw : gw * 15 <= width - 4) by lia.
  assert (Bh : gh * 15 <= height - 4) by lia.
  pose proof (Z.div_mod (width - gw * 15) 2 ltac:(lia)) as Ow.
  pose proof (Z.mod_pos_bound (width - gw * 15) 2 ltac:(lia)) as Pw.
  pose proof (Z.div_mod (height - gh * 15) 2 ltac:(lia)) as Oh.
  pose proof (Z.mod_pos_bound (height - gh * 15) 2 ltac:(lia)) as Ph.
  lia.
Qed.

Lemma board_centred_after_resize_witness :
  exists b b',
    play [Tick] [9; 7; 4; 4; 0; 1] = Ok (b, [4; 4; 0; 1])
    /\ GameBoard.resizeEvent b 460 300 [4; 4; 0; 1] = Ok (b', [])
    /\ GameBoard.origin (GameBoard.paintEvent b' 460 300) = (5, 7)
    /\ 2 <= fst (GameBoard.origin (GameBoard.paintEvent b' 460 300)).
Proof.
  do 2 eexists. split; [vm_compute; reflexivity|].
  split; [vm_compute; reflexivity|]. split; [reflexivity|].
  match goal with
  | |- 2 <= fst (GameBoard.origin (GameBoard.paintEvent ?x _ _)) =>
      exact (proj1 (board_centred_after_resize [Tick] [9; 7; 4; 4; 0; 1]
                      [4; 4; 0; 1] [] _ x 460 300
                      ltac:(vm_compute; reflexivity)
                      ltac:(vm_compute; reflexivity)
                      ltac:(lia) ltac:(lia)))
  end.
Defined.

(** ** The score label of the window *)

Lemma iter_on_game_over (n : nat) (w : SnakeGameWindow.t) :
  SnakeGameWindow.game_board (Nat.iter n SnakeGameWindow.on_game_over w)
    = SnakeGameWindow.game_board w
  /\ SnakeGameWindow.score_label (Nat.iter n SnakeGameWindow.on_game_over w)
     = SnakeGameWindow.score_label w
  /\ SnakeGameWindow.score_timer_active
       (Nat.iter n SnakeGameWindow.on_game_over w)
     = match n with
       | O => SnakeGameWindow.score_timer_active w
       | S _ => false
       end.
Proof.
  induction n as [|n [IHb [IHl IHt]]]; [repeat split|].
  cbn [Nat.iter SnakeGameWindow.on_game_over SnakeGameWindow.game_board
       SnakeGameWindow.score_label SnakeGameWindow.score_timer_active].
  repeat split; assumption.
Qed.

Lemma deliver_stopped (w w' : SnakeGameWindow.t) (ev : window_event) (tp tp' : tape) :
  SnakeGameWindow.score_timer_active w = false ->
  deliver w ev tp = Ok (w', tp') ->
  SnakeGameWindow.score_timer_active w' = false
  /\ SnakeGameWindow.score_label w' = SnakeGameWindow.score_label w.
Proof.
  intros Hs H. destruct ev as [e|]; cbn [deliver] in H.
  - destruct (handle (SnakeGameWindow.game_board w) e tp) as [[b1 tp1]| |];
      try discriminate.
    cbn [bind] in H. injection H as <- <-.
    match goal with
    | |- context [Nat.iter ?n _ ?x] =>
        destruct (iter_on_game_over n x) as [_ [El Et]]
    end.
    rewrite El, Et. cbn. split; [|reflexivity].
    match goal with |- match ?n with _ => _ end = _ => destruct n end;
      [exact Hs | reflexivity].
  - rewrite Hs in H. injection H as <- <-. split; [exact Hs | reflexivity].
Qed.

(** X19: the timer tick that ends a game stops the window's score timer, and
    nothing starts it again: from then on, through any restart, further ticks,
    key presses, resizes and meals, the score label keeps showing the same
    number. *)
Theorem score_label_freezes :
  (forall (w w' : SnakeGameWindow.t) (tp tp' : tape),
      GameBoard.game_active (SnakeGameWindow.game_board w) = true ->
      deliver w (BoardEvent Tick) tp = Ok (w', tp') ->
      GameBoard.game_active (SnakeGameWindow.game_board w') = false ->
      SnakeGameWindow.score_timer_active w' = false)
  /\ (forall (events : list window_event) (w w' : SnakeGameWindow.t)
             (tp tp' : tape),
         SnakeGameWindow.score_timer_active w = false ->
         run_window w events tp = Ok (w', tp') ->
         SnakeGameWindow.score_timer_active w' = false
         /\ SnakeGameWindow.score_label w' = SnakeGameWindow.score_label w).
Proof.
  split.
  - intros w w' tp tp' Ha H Hover. cbn [deliver handle] in H.
    destruct (GameBoard.update_game (SnakeGameWindow.game_board w) tp)
      as [[b1 tp1]| |] eqn:U; try discriminate.
    cbn [bind] in H. injection H as <- <-.
    match goal with
    | |- context [Nat.iter ?n _ ?x] =>
        destruct (iter_on_game_over n x) as [Eb [_ Et]]
    end.
    rewrite Eb in Hover. cbn in Hover. rewrite Et.
    apply update_game_signal in U. rename U into Ue.
    rewrite Ue, Ha, Hover. cbn [andb negb].
    replace (GameBoard.game_over_emitted (SnakeGameWindow.game_board w) + 1
             - GameBoard.game_over_emitted (SnakeGameWindow.game_board w))%nat
      with 1%nat by lia.
    reflexivity.
  - induction events as [|ev events IH]; intros w w' tp tp' Hs H.
    + injection H as <- <-. split; [exact Hs | reflexivity].
    + cbn [run_window] in H.
      destruct (deliver w ev tp) as [[w1 tp1]| |] eqn:D; try discriminate.
      cbn [bind] in H.
      destruct (deliver_stopped w w1 ev tp tp1 Hs D) as [Hs1 Hl1].
      destruct (IH w1 w' tp1 tp' Hs1 H) as [Hs' Hl'].
      split; [exact Hs' | congruence].
Qed.

Lemma score_label_freezes_witness :
  exists w w',
    play_window (map BoardEvent (repeat Tick 8)) [0; 0; 9; 7; 3; 3]
      = Ok (w, [9; 7; 3; 3])
    /\ run_window w [BoardEvent (KeyPress Key_Space); BoardEvent Tick;
                     BoardEvent Tick; ScoreTimeout] [9; 7; 3; 3]
       = Ok (w', [])
    /\ GameBoard.score (SnakeGameWindow.game_board w') = 10
    /\ SnakeGameWindow.score_label w' = 0.
Proof.
  do 2 eexists. split; [vm_compute; reflexivity|].
  match goal with
  | |- run_window ?w0 _ _ = _ /\ _ => pose (stopped := w0)
  end.
  split; [vm_compute; reflexivity|]. split; [reflexivity|].
  match goal with
  | |- SnakeGameWindow.score_label ?x = _ =>
      rewrite (proj2 (proj2 score_label_freezes
                        [BoardEvent (KeyPress Key_Space); BoardEvent Tick;
                         BoardEvent Tick; ScoreTimeout]
                        stopped x [9; 7; 3; 3] []
                        eq_refl ltac:(vm_compute; reflexivity)))
  end.
  reflexivity.
Defined.

(** ** More on resizeEvent, respawn and restarts *)

(** X20: whatever the board was, after a resize event its cell size is 15
    and its grid is the one derived from the size of the event,
    [max((pixels - 4) // 15, 15)] on each axis, with the board measured
    accordingly whenever the event changed anything. *)
Theorem resizeEvent_sets_geometry
  (b b' : GameBoard.t) (width height : Z) (tp tp' : tape) :
  GameBoard.resizeEvent b width height tp = Ok (b', tp') ->
  GameBoard.cell_size b' = 15
  /\ GameBoard.grid_width b' = Z.max ((width - 4) / 15) 15
  /\ GameBoard.grid_height b' = Z.max ((height - 4) / 15) 15
  /\ (b' = b
      \/ (GameBoard.board_width b' = GameBoard.grid_width b' * 15
          /\ GameBoard.board_height b' = GameBoard.grid_height b' * 15)).
Proof.
  intros H. pose proof (resizeEvent_geometry b b' width height tp tp' H) as G.
  unfold changed in G.
  rewrite !orb_false_iff, !negb_false_iff, !Z.eqb_eq in G.
  destruct G as [[Ec Ew] Eh].
  split; [congruence|]. split; [congruence|]. split; [congruence|].
  revert H.
  refine (resizeEvent_cases
            (fun x => x = b
                      \/ (GameBoard.board_width x = GameBoard.grid_width x * 15
                          /\ GameBoard.board_height x
                             = GameBoard.grid_height x * 15))
            b _ _ _ width height tp tp' b').
  - left. reflexivity.
  - intros. right. cbn. split; reflexivity.
  - intros. right. cbn. split; reflexivity.
Qed.

Lemma resizeEvent_sets_geometry_witness :
  exists b',
    GameBoard.resizeEvent scenario_B 460 300 [4; 4; 0; 1] = Ok (b', [])
    /\ GameBoard.cell_size b' = 15
    /\ GameBoard.grid_width b' = 30 /\ GameBoard.grid_height b' = 19.
Proof.
  eexists. split; [vm_compute; reflexivity|].
  match goal with
  | |- GameBoard.cell_size ?x = _ /\ _ =>
      destruct (resizeEvent_sets_geometry scenario_B x 460 300 [4; 4; 0; 1] []
                  ltac:(vm_compute; reflexivity)) as [Hc [Hw [Hh _]]]
  end.
  split; [exact Hc|]. split; [rewrite Hw | rewrite Hh]; reflexivity.
Defined.

Lemma respawn_skips (snake_body : list Cell) (x y : Z) (post : tape) (n : nat) :
  forall (f : Food.t) (pre : tape),
    (length pre <= n)%nat ->
    0 < Food.grid_width f -> 0 < Food.grid_height f ->
    all_on_body (Food.grid_width f) (Food.grid_height f) snake_body pre = true ->
    cell_in (x mod Food.grid_width f, y mod Food.grid_height f) snake_body = false ->
    Food.respawn f snake_body (pre ++ x :: y :: post) =
      Ok ({| Food.grid_width := Food.grid_width f;
             Food.grid_height := Food.grid_height f;
             Food.position := (x mod Food.grid_width f, y mod Food.grid_height f) |},
          post).
Proof.
  induction n as [|n IH]; intros f pre Hl Hw Hh Hall Hfree.
  - destruct pre; [|simpl in Hl; lia]. cbn [app].
    rewrite respawn_unfold, generate_position_cons by assumption.
    cbn [bind]. now rewrite Hfree.
  - destruct pre as [|a [|c pre]]; [| discriminate Hall |].
    + cbn [app]. rewrite respawn_unfold, generate_position_cons by assumption.
      cbn [bind]. now rewrite Hfree.
    + cbn [all_on_body] in Hall. apply andb_true_iff in Hall.
      destruct Hall as [Ha Hall]. cbn [app].
      rewrite respawn_unfold, generate_position_cons by assumption.
      cbn [bind]. rewrite Ha. cbn [negb].
      simpl in Hl.
      apply (IH {| Food.grid_width := Food.grid_width f;
                   Food.grid_height := Food.grid_height f;
                   Food.position := (a mod Food.grid_width f,
                                     c mod Food.grid_height f) |} pre);
        try assumption. lia.
Qed.

(** X21: [respawn] settles on the first draw pair that is not on the
    snake: the pairs before it, all on the body, are consumed and
    discarded, the position is that pair reduced into the grid, and the rest
    of the random source is left untouched. *)
Theorem respawn_first_free
  (f : Food.t) (snake_body : list Cell) (pre post : tape) (x y : Z) :
  0 < Food.grid_width f -> 0 < Food.grid_height f ->
  all_on_body (Food.grid_width f) (Food.grid_height f) snake_body pre = true ->
  ~ In (x mod Food.grid_width f, y mod Food.grid_height f) snake_body ->
  Food.respawn f snake_body (pre ++ x :: y :: post) =
    Ok ({| Food.grid_width := Food.grid_width f;
           Food.grid_height := Food.grid_height f;
           Food.position := (x mod Food.grid_width f, y mod Food.grid_height f) |},
        post).
Proof.
  intros Hw Hh Hall Hfree. apply cell_in_not_In in Hfree.
  now apply (respawn_skips snake_body x y post (length pre)).
Qed.

Lemma respawn_first_free_witness :
  Food.respawn (GameBoard.food scenario_resize)
    (Snake.body (GameBoard.snake scenario_resize))
    ([12; 10; 26; 30] ++ 25 :: 37 :: [8; 8])
  = Ok ({| Food.grid_width := 20; Food.grid_height := 20;
           Food.position := (5, 17) |}, [8; 8]).
Proof.
  apply (respawn_first_free (GameBoard.food scenario_resize)
           (Snake.body (GameBoard.snake scenario_resize))
           [12; 10; 26; 30] [8; 8] 25 37).
  - simpl. lia.
  - simpl. lia.
  - reflexivity.
  - simpl. intuition discriminate.
Defined.

Lemma update_game_score (b b' : GameBoard.t) (tp tp' : tape) :
  GameBoard.update_game b tp = Ok (b', tp') ->
  GameBoard.score b' = GameBoard.score b
  \/ GameBoard.score b' = GameBoard.score b + 10.
Proof.
  intros H. destruct (GameBoard.game_active b) eqn:Ha.
  2:{ rewrite update_game_inactive in H by assumption.
      injection H as <- <-. left. reflexivity. }
  destruct (Snake.body (GameBoard.snake b)) as [|h tl] eqn:Hb.
  { unfold GameBoard.update_game, Snake.move in H. rewrite Ha, Hb in H.
    discriminate. }
  rewrite (update_game_active b tp h tl Ha Hb) in H. cbv zeta in H.
  destruct (collides (GameBoard.snake b) h).
  - injection H as <- <-. left. reflexivity.
  - destruct (cell_eqb _ _).
    + destruct (Food.respawn _ _ tp) as [[f tp1]| |]; try discriminate.
      cbn [bind] in H. injection H as <- <-. right. reflexivity.
    + injection H as <- <-. left. reflexivity.
Qed.

Lemma no_restart_step (b b' : GameBoard.t) (e : event) (tp tp' : tape) :
  is_restart_key e = false ->
  handle b e tp = Ok (b', tp') ->
  GameBoard.score b <= GameBoard.score b'
  /\ (GameBoard.game_active b = false ->
      GameBoard.game_active b' = false
      /\ GameBoard.score b' = GameBoard.score b).
Proof.
  intros Q H. destruct e as [|key|w h]; cbn [handle] in H.
  - pose proof (update_game_score _ _ _ _ H) as S.
    split; [lia|]. intros Ha. rewrite update_game_inactive in H by assumption.
    injection H as <- <-. split; [exact Ha | reflexivity].
  - destruct key; try discriminate Q; cbn [GameBoard.keyPressEvent] in H;
      injection H as <- <-; cbn; split; try lia; intros Ha; split;
      try exact Ha; reflexivity.
  - apply resizeEvent_session in H. destruct H as [-> ->].
    split; [lia|]. intros Ha. split; [exact Ha | reflexivity].
Qed.

(** X22: as long as the space bar is not pressed, the score never goes
    down, and a game that is over stays over with its final score: ticks do
    nothing to it, arrow keys only turn the snake, and a resize writes the
    old score and state back. *)
Theorem no_restart_without_space
  (events : list event) (b b' : GameBoard.t) (tp tp' : tape) :
  forallb (fun e => negb (is_restart_key e)) events = true ->
  run b events tp = Ok (b', tp') ->
  GameBoard.score b <= GameBoard.score b'
  /\ (GameBoard.game_active b = false ->
      GameBoard.game_active b' = false
      /\ GameBoard.score b' = GameBoard.score b).
Proof.
  revert b tp. induction events as [|e events IH]; intros b tp HQ H.
  - injection H as <- <-. split; [lia|]. intros Ha. split; [exact Ha | reflexivity].
  - cbn [forallb] in HQ. apply andb_true_iff in HQ. destruct HQ as [Qe Qs].
    apply negb_true_iff in Qe. cbn [run] in H.
    destruct (handle b e tp) as [[b1 tp1]| |] eqn:E; try discriminate.
    cbn [bind] in H.
    destruct (no_restart_step b b1 e tp tp1 Qe E) as [S1 K1].
    destruct (IH b1 tp1 Qs H) as [S2 K2].
    split; [lia|]. intros Ha. destruct (K1 Ha) as [Ha1 E1].
    destruct (K2 Ha1) as [Ha2 E2]. split; [exact Ha2 | congruence].
Qed.

Lemma no_restart_without_space_witness :
  exists b b',
    GameBoard.update_game scenario_B [] = Ok (b, [])
    /\ run b [Tick; KeyPress Key_Left; Resize 460 300; Tick] [4; 4; 0; 1]
       = Ok (b', [])
    /\ GameBoard.game_active b' = false
    /\ GameBoard.score b' = 30.
Proof.
  do 2 eexists. split; [vm_compute; reflexivity|].
  match goal with
  | |- run ?b0 _ _ = _ /\ _ => pose (over := b0)
  end.
  split; [vm_compute; reflexivity|].
  match goal with
  | |- GameBoard.game_active ?x = _ /\ _ =>
      destruct (no_restart_without_space
                  [Tick; KeyPress Key_Left; Resize 460 300; Tick]
                  over x [4; 4; 0; 1] [] eq_refl
                  ltac:(vm_compute; reflexivity)) as [_ K];
      destruct (K eq_refl) as [Ka Ks]
  end.
  split; [exact Ka | rewrite Ks; reflexivity].
Defined.
